(** * CESMII SM Profile Validator: a shallow embedding of
      [cesmii_validator/validator.py] and the properties of its
      validation engine.

    Payload values are Python values as [json.load] builds them.  Python
    strings are modelled as Rocq strings, i.e. sequences of characters
    with code points below 256; on that range the regular-expression
    class [\d] is exactly the ASCII digits.  Profile documents are
    modelled as records with one field per key the validator reads; a key
    that may be absent is an [option], and the defaults of the source's
    [.get(key, default)] calls are applied where the source applies them.
    The types of the leaves follow the source's annotations
    ([opc_type: str], [profile_ref: str], [referenced_profiles:
    dict[str, dict]]). *)

From Stdlib Require Import List String Ascii ZArith Bool Arith Lia PrimFloat DecimalString.
Import ListNotations.
Local Open Scope string_scope.

Set Implicit Arguments.

(** ** Python values *)

Unset Elimination Schemes.
Inductive value : Type :=
| VNone
| VBool (b : bool)
| VInt (z : Z)
| VFloat (f : float)
| VStr (s : string)
| VList (l : list value)
| VDict (d : list (string * value)).
Set Elimination Schemes.

(** [type(value).__name__] *)
Definition type_name (v : value) : string :=
  match v with
  | VNone => "NoneType"
  | VBool _ => "bool"
  | VInt _ => "int"
  | VFloat _ => "float"
  | VStr _ => "str"
  | VList _ => "list"
  | VDict _ => "dict"
  end.

(** Truth value of a Python object, as tested by [if x:] and [x and y]. *)
Definition truthy (v : value) : bool :=
  match v with
  | VNone => false
  | VBool b => b
  | VInt z => negb (z =? 0)%Z
  | VFloat f => negb (PrimFloat.eqb f 0%float)
  | VStr s => negb (s =? "")
  | VList l => match l with [] => false | _ => true end
  | VDict d => match d with [] => false | _ => true end
  end.

(** Truth value of an optional string ([None] and [""] are false). *)
Definition truthy_str (o : option string) : bool :=
  match o with
  | Some s => negb (s =? "")
  | None => false
  end.

(** [isinstance(value, int)]: [bool] is a subclass of [int] in Python, so
    both [VInt] and [VBool] are instances.  [int_value] is the integer a
    value counts as in comparisons ([True] is 1, [False] is 0). *)
Definition isinstance_int (v : value) : bool :=
  match v with
  | VInt _ | VBool _ => true
  | _ => false
  end.

Definition int_value (v : value) : Z :=
  match v with
  | VInt z => z
  | VBool true => 1
  | _ => 0
  end%Z.

Definition isinstance_bool (v : value) : bool :=
  match v with VBool _ => true | _ => false end.

Definition isinstance_float (v : value) : bool :=
  match v with VFloat _ => true | _ => false end.

Definition isinstance_str (v : value) : bool :=
  match v with VStr _ => true | _ => false end.

Definition isinstance_list (v : value) : bool :=
  match v with VList _ => true | _ => false end.

Definition isinstance_dict (v : value) : bool :=
  match v with VDict _ => true | _ => false end.

(** ** Dictionaries as association lists (insertion order kept) *)

Section Dict.
Variables (K V : Type).
Variable eqb_key : K -> K -> bool.

(** [d.get(k)] *)
Fixpoint dict_get (k : K) (d : list (K * V)) : option V :=
  match d with
  | [] => None
  | (k', v) :: rest => if eqb_key k k' then Some v else dict_get k rest
  end.

(** [d[k] = v]: an existing key keeps its position. *)
Fixpoint dict_set (k : K) (v : V) (d : list (K * V)) : list (K * V) :=
  match d with
  | [] => [(k, v)]
  | (k', v') :: rest =>
      if eqb_key k k' then (k', v) :: rest else (k', v') :: dict_set k v rest
  end.
End Dict.

Definition str_get (V : Type) := @dict_get string V String.eqb.

(** ** Strings *)

(** [hay.startswith(s)] *)
Fixpoint str_prefix (s hay : string) : bool :=
  match s with
  | EmptyString => true
  | String a s' =>
      match hay with
      | EmptyString => false
      | String b hay' => Ascii.eqb a b && str_prefix s' hay'
      end
  end.

(** [needle in hay] for Python strings: substring containment. *)
Fixpoint str_in (needle hay : string) : bool :=
  str_prefix needle hay
  || match hay with
     | EmptyString => false
     | String _ rest => str_in needle rest
     end.

(** [str(i)] for a non-negative index. *)
Definition str_of_nat (n : nat) : string :=
  NilZero.string_of_uint (Nat.to_uint n).

(** ** The fragment of regular expressions the validator uses

    A pattern is a sequence of items; [re_match] is Python's [re.match]:
    the pattern must match at the start of the string and need not reach
    its end unless the pattern says so. *)

Inductive re_item : Type :=
| Rep (cls : ascii -> bool) (n : nat)   (* [cls]{n} *)
| Lit (c : ascii)                       (* a literal character *)
| DotStar                               (* .*  ([.] excludes newline) *)
| Dollar.                               (* $: at the end, or just before a final newline *)

Definition newline : ascii := "010"%char.

Definition is_digit (c : ascii) : bool :=
  let n := nat_of_ascii c in ((48 <=? n) && (n <=? 57))%nat.

Definition is_hex (c : ascii) : bool :=
  let n := nat_of_ascii c in
  (((48 <=? n) && (n <=? 57)) || ((97 <=? n) && (n <=? 102))
   || ((65 <=? n) && (n <=? 70)))%nat.

Fixpoint re_match (pat : list re_item) (s : string) : bool :=
  match pat with
  | [] => true
  | Rep cls n :: pat' =>
      (fix rep (n : nat) (s : string) : bool :=
         match n with
         | O => re_match pat' s
         | S n' =>
             match s with
             | String c s' => cls c && rep n' s'
             | EmptyString => false
             end
         end) n s
  | Lit c :: pat' =>
      match s with
      | String c' s' => Ascii.eqb c c' && re_match pat' s'
      | EmptyString => false
      end
  | DotStar :: pat' =>
      (fix star (s : string) : bool :=
         re_match pat' s
         || match s with
            | String c s' => negb (Ascii.eqb c newline) && star s'
            | EmptyString => false
            end) s
  | Dollar :: pat' =>
      match s with
      | EmptyString => re_match pat' s
      | String c EmptyString => Ascii.eqb c newline && re_match pat' s
      | _ => false
      end
  end.

(** r"^\d{4}-\d{2}-\d{2}T\d{2}:\d{2}:\d{2}" *)
Definition datetime_pattern : list re_item :=
  [Rep is_digit 4; Lit "-"; Rep is_digit 2; Lit "-"; Rep is_digit 2; Lit "T";
   Rep is_digit 2; Lit ":"; Rep is_digit 2; Lit ":"; Rep is_digit 2].

(** r"^\d{4}-\d{2}-\d{2}T\d{2}:\d{2}:\d{2}.*Z$" *)
Definition utctime_pattern : list re_item :=
  datetime_pattern ++ [DotStar; Lit "Z"; Dollar].

(** r"^[0-9a-fA-F]{8}-[0-9a-fA-F]{4}-[0-9a-fA-F]{4}-[0-9a-fA-F]{4}-[0-9a-fA-F]{12}$" *)
Definition guid_pattern : list re_item :=
  [Rep is_hex 8; Lit "-"; Rep is_hex 4; Lit "-"; Rep is_hex 4; Lit "-";
   Rep is_hex 4; Lit "-"; Rep is_hex 12; Dollar].

(** ** OPC UA data type validators *)

Definition _is_valid_boolean (v : value) : bool := isinstance_bool v.

Definition _is_valid_int16 (v : value) : bool :=
  isinstance_int v && ((-32768 <=? int_value v) && (int_value v <=? 32767))%Z.

Definition _is_valid_int32 (v : value) : bool :=
  isinstance_int v && ((-2147483648 <=? int_value v) && (int_value v <=? 2147483647))%Z.

Definition _is_valid_int64 (v : value) : bool :=
  isinstance_int v
  && ((-9223372036854775808 <=? int_value v) && (int_value v <=? 9223372036854775807))%Z.

Definition _is_valid_uint16 (v : value) : bool :=
  isinstance_int v && ((0 <=? int_value v) && (int_value v <=? 65535))%Z.

Definition _is_valid_uint32 (v : value) : bool :=
  isinstance_int v && ((0 <=? int_value v) && (int_value v <=? 4294967295))%Z.

Definition _is_valid_uint64 (v : value) : bool :=
  isinstance_int v && ((0 <=? int_value v) && (int_value v <=? 18446744073709551615))%Z.

Definition _is_valid_float (v : value) : bool :=
  isinstance_int v || isinstance_float v.

Definition _is_valid_double (v : value) : bool :=
  isinstance_int v || isinstance_float v.

Definition _is_valid_string (v : value) : bool := isinstance_str v.

Definition _is_valid_datetime (v : value) : bool :=
  match v with
  | VStr s => re_match datetime_pattern s
  | _ => false
  end.

Definition _is_valid_utctime (v : value) : bool :=
  match v with
  | VStr s => re_match utctime_pattern s
  | _ => false
  end.

Definition _is_valid_guid (v : value) : bool :=
  match v with
  | VStr s => re_match guid_pattern s
  | _ => false
  end.

(** The table from type identifiers to a validator and the description
    of the expected type. *)
Definition OPC_TYPE_VALIDATORS : list (string * ((value -> bool) * string)) :=
  [ ("opc:Boolean", (_is_valid_boolean, "boolean"));
    ("opc:Int16", (_is_valid_int16, "integer (-32768 to 32767)"));
    ("opc:Int32", (_is_valid_int32, "integer (-2147483648 to 2147483647)"));
    ("opc:Int64", (_is_valid_int64, "integer (64-bit)"));
    ("opc:UInt16", (_is_valid_uint16, "unsigned integer (0 to 65535)"));
    ("opc:UInt32", (_is_valid_uint32, "unsigned integer (0 to 4294967295)"));
    ("opc:UInt64", (_is_valid_uint64, "unsigned integer (64-bit)"));
    ("opc:Float", (_is_valid_float, "float"));
    ("opc:Double", (_is_valid_double, "double"));
    ("opc:String", (_is_valid_string, "string"));
    ("opc:DateTime", (_is_valid_datetime, "ISO 8601 datetime"));
    ("opc:UtcTime", (_is_valid_utctime, "ISO 8601 UTC time (ending with Z)"));
    ("opc:Guid", (_is_valid_guid, "GUID/UUID")) ].

(** ** Errors and results *)

Record ValidationError : Type := mkError {
  path : string;
  message : string;
  expected : option string;
  actual : option string
}.

(** A warning of [validate].  The source stores the text
    [f"Payload namespace '{payload_ns}' doesn't match profile namespace
    '{self.namespace}'"]; the model keeps the two interpolated values,
    of which the text is a function. *)
Record Warning : Type := mkWarning {
  payload_namespace : value;
  profile_namespace : string
}.

Record ValidationResult : Type := mkResult {
  valid : bool;
  errors : list ValidationError;
  warnings : list Warning
}.

(** ** [ProfileValidator._validate_timezone] *)

Definition _validate_timezone (v : value) (p : string) : list ValidationError :=
  match v with
  | VDict d =>
      let errors : list ValidationError := [] in
      let errors :=
        match str_get "offset" d with
        | None =>
            (errors ++ [mkError (p ++ ".offset") "Missing required field" None None])%list
        | Some off =>
            if negb (_is_valid_int16 off)
            then (errors ++ [mkError (p ++ ".offset") "Invalid type"
                               (Some "integer (-32768 to 32767)") (Some (type_name off))])%list
            else errors
        end in
      let errors :=
        match str_get "daylightSavingInOffset" d with
        | None =>
            (errors ++ [mkError (p ++ ".daylightSavingInOffset")
                          "Missing required field" None None])%list
        | Some dst =>
            if negb (_is_valid_boolean dst)
            then (errors ++ [mkError (p ++ ".daylightSavingInOffset") "Invalid type"
                               (Some "boolean") (Some (type_name dst))])%list
            else errors
        end in
      errors
  | _ =>
      [mkError p "TimeZoneDataType must be an object"
         (Some "object with offset and daylightSavingInOffset") (Some (type_name v))]
  end.

(** ** [ProfileValidator._validate_opc_type] *)

Definition _validate_opc_type (v : value) (opc_type : string) (p : string)
  : list ValidationError :=
  match str_get opc_type OPC_TYPE_VALIDATORS with
  | Some (validator, type_desc) =>
      if negb (validator v)
      then [mkError p "Invalid type" (Some type_desc) (Some (type_name v))]
      else []
  | None =>
      if opc_type =? "opc:TimeZoneDataType"
      then _validate_timezone v p
      else []
  end.

(** ** Profile documents

    One record field per key the validator reads from the parsed JSON-LD
    document. *)

(** The object under ["cesmii:dataType"]. *)
Record DataTypeDef : Type := mkDataType {
  dt_id : option string;                   (* "@id" *)
  cesmii_profileReference : option string  (* "cesmii:profileReference" *)
}.

(** An entry of ["cesmii:attributes"] or ["cesmii:fields"].
    [cesmii_dataType] is [None] when the key is absent or its value is
    not an object: the source reads no type and no reference in both
    cases. *)
Record FieldDef : Type := mkField {
  cesmii_fieldName : option string;
  cesmii_browseName : option string;
  cesmii_dataType : option DataTypeDef;
  cesmii_isArray : option bool
}.

(** An entry of ["@context"]: an object with an optional ["@type"], or
    anything else (a plain IRI string, for instance). *)
Inductive ContextEntry : Type :=
| CtxObject (at_type : option string)
| CtxOther.

Record Profile : Type := mkProfile {
  cesmii_isDataType : option bool;
  cesmii_fields : list FieldDef;        (* absent: [] *)
  cesmii_attributes : list FieldDef;    (* absent: [] *)
  at_id : option string;
  at_context : list (string * ContextEntry)   (* absent: {} *)
}.

(** [d.get(key, default)] on an optional entry. *)
Definition get_default (A : Type) (o : option A) (default : A) : A :=
  match o with Some a => a | None => default end.

(** ** [ProfileValidator] *)

(** The keys of [self.fields] are the results of [f.get(name_key)]: a
    string, or [None] when the entry has no name. *)
Definition key_eqb (a b : option string) : bool :=
  match a, b with
  | Some x, Some y => x =? y
  | None, None => true
  | _, _ => false
  end.

(** [str(key)], as interpolated into a path. *)
Definition key_str (k : option string) : string :=
  match k with Some s => s | None => "None" end.

(** [d.get(key)] / [key in d] for a dictionary with string keys. *)
Definition key_get (V : Type) (k : option string) (d : list (string * V)) : option V :=
  match k with
  | Some s => str_get s d
  | None => None
  end.

Record ProfileValidator : Type := mkValidator {
  profile : Profile;
  referenced_profiles : list (string * Profile);
  is_data_type : bool;
  fields : list (option string * FieldDef);
  namespace : string;
  context : list (string * ContextEntry)
}.

(** The dict comprehension [{name_of(f): f for f in defs}]. *)
Definition fields_by (name_of : FieldDef -> option string) (defs : list FieldDef)
  : list (option string * FieldDef) :=
  fold_left (fun d f => dict_set key_eqb (name_of f) f d) defs [].

(** [__init__] followed by [_parse_profile]. *)
Definition _parse_profile (profile : Profile) (referenced_profiles : list (string * Profile))
  : ProfileValidator :=
  let is_data_type := get_default (cesmii_isDataType profile) false in
  {| profile := profile;
     referenced_profiles := referenced_profiles;
     is_data_type := is_data_type;
     fields :=
       if is_data_type
       then fields_by cesmii_fieldName (cesmii_fields profile)
       else fields_by cesmii_browseName (cesmii_attributes profile);
     namespace := get_default (at_id profile) "";
     context := at_context profile |}.

(** [ProfileValidator(profile, referenced_profiles)]; the second argument
    is optional and [referenced_profiles or {}] is stored. *)
Definition new_ProfileValidator (profile : Profile)
  (referenced_profiles : option (list (string * Profile))) : ProfileValidator :=
  _parse_profile profile (get_default referenced_profiles []).

Definition _get_type_from_context (self : ProfileValidator) (field_name : option string)
  : option string :=
  match key_get field_name (context self) with
  | Some (CtxObject t) => t
  | _ => None
  end.

(** The search loop of [_validate_nested_profile]:
    [for ns, profile in self.referenced_profiles.items():
       if ns in profile_ref or profile_ref in ns: ref_profile = profile; break] *)
Fixpoint find_ref_profile (items : list (string * Profile)) (profile_ref : string)
  : option Profile :=
  match items with
  | [] => None
  | (ns, profile) :: rest =>
      if str_in ns profile_ref || str_in profile_ref ns
      then Some profile
      else find_ref_profile rest profile_ref
  end.

Definition not_loaded_error (profile_ref p : string) : ValidationError :=
  mkError p ("Could not validate against referenced profile (not loaded): " ++ profile_ref)
    None None.

(** [validate] and [_validate_nested_profile] call each other.  The body
    of [validate] is written over the recursive call [validate_rec]; a
    result of [None] means that the call depth allowed was exceeded. *)
Section ValidateBody.
Variable validate_rec : ProfileValidator -> value -> string -> option ValidationResult.

Definition _validate_nested_profile (self : ProfileValidator) (v : value)
  (profile_ref : string) (p : string) : option (list ValidationError) :=
  match find_ref_profile (referenced_profiles self) profile_ref with
  | None => Some [not_loaded_error profile_ref p]
  | Some ref_profile =>
      let nested_validator :=
        new_ProfileValidator ref_profile (Some (referenced_profiles self)) in
      match validate_rec nested_validator v p with
      | Some result => Some (errors result)
      | None => None
      end
  end.

(** The dispatch on one value, written twice in the source (for an
    array element and for a single value):
    [if profile_ref: errors.extend(nested) elif opc_type: errors.extend(opc)] *)
Definition check_value (self : ProfileValidator) (profile_ref opc_type : option string)
  (v : value) (p : string) (errors : list ValidationError)
  : option (list ValidationError) :=
  if truthy_str profile_ref
  then match _validate_nested_profile self v (get_default profile_ref "") p with
       | Some es => Some (errors ++ es)%list
       | None => None
       end
  else if truthy_str opc_type
  then Some (errors ++ _validate_opc_type v (get_default opc_type "") p)%list
  else Some errors.

(** [for i, item in enumerate(value): ...] from index [i] on. *)
Fixpoint items_loop (self : ProfileValidator) (profile_ref opc_type : option string)
  (p : string) (items : list value) (i : nat) (errors : list ValidationError)
  : option (list ValidationError) :=
  match items with
  | [] => Some errors
  | item :: rest =>
      let item_path := p ++ "[" ++ str_of_nat i ++ "]" in
      match check_value self profile_ref opc_type item item_path errors with
      | Some errors' => items_loop self profile_ref opc_type p rest (S i) errors'
      | None => None
      end
  end.

(** One iteration of [for field_name, field_def in self.fields.items()].
    A key that is [None] is in no payload, so the path computed for it is
    never used. *)
Definition validate_field (self : ProfileValidator) (payload : list (string * value))
  (path_prefix : string) (fld : option string * FieldDef)
  (errors : list ValidationError) : option (list ValidationError) :=
  let (field_name, field_def) := fld in
  let p :=
    if truthy (VStr path_prefix)
    then path_prefix ++ "." ++ key_str field_name
    else key_str field_name in
  match key_get field_name payload with
  | None => Some errors
  | Some v =>
      let data_type_def := cesmii_dataType field_def in
      let opc_type :=
        match data_type_def with Some dt => dt_id dt | None => None end in
      let opc_type :=
        if negb (truthy_str opc_type)
        then _get_type_from_context self field_name
        else opc_type in
      let is_array := get_default (cesmii_isArray field_def) false in
      let profile_ref :=
        match data_type_def with
        | Some dt => cesmii_profileReference dt
        | None => None
        end in
      if is_array
      then match v with
           | VList items => items_loop self profile_ref opc_type p items 0 errors
           | _ =>
               Some (errors ++ [mkError p "Expected array" (Some "array")
                                  (Some (type_name v))])%list
           end
      else check_value self profile_ref opc_type v p errors
  end.

Fixpoint fields_loop (self : ProfileValidator) (payload : list (string * value))
  (path_prefix : string) (flds : list (option string * FieldDef))
  (errors : list ValidationError) : option (list ValidationError) :=
  match flds with
  | [] => Some errors
  | fld :: rest =>
      match validate_field self payload path_prefix fld errors with
      | Some errors' => fields_loop self payload path_prefix rest errors'
      | None => None
      end
  end.

(** [payload_ns != self.namespace], the right side being a string. *)
Definition ne_str (v : value) (s : string) : bool :=
  match v with
  | VStr s' => negb (s' =? s)
  | _ => true
  end.

Definition validate_body (self : ProfileValidator) (payload : value)
  (path_prefix : string) : option ValidationResult :=
  match payload with
  | VDict d =>
      let payload_ns := get_default (str_get "$namespace" d) (VStr "") in
      let warnings :=
        if truthy payload_ns && truthy (VStr (namespace self))
           && ne_str payload_ns (namespace self)
        then [mkWarning payload_ns (namespace self)]
        else [] in
      match fields_loop self d path_prefix (fields self) [] with
      | Some errors => Some (mkResult (List.length errors =? 0)%nat errors warnings)
      | None => None
      end
  | _ =>
      Some (mkResult false
              [mkError (if truthy (VStr path_prefix) then path_prefix else "$")
                 "Payload must be an object" (Some "object")
                 (Some (type_name payload))]
              [])
  end.
End ValidateBody.

(** [ProfileValidator.validate], with at most [fuel] nested calls of
    [validate] on the call stack. *)
Fixpoint validate (fuel : nat) : ProfileValidator -> value -> string -> option ValidationResult :=
  match fuel with
  | O => fun _ _ _ => None
  | S fuel' => validate_body (validate fuel')
  end.

(** [validate_payload] for a profile that is already loaded. *)
Definition validate_payload (fuel : nat) (payload : value) (profile : Profile)
  (referenced_profiles : option (list (string * Profile))) : option ValidationResult :=
  validate fuel (new_ProfileValidator profile referenced_profiles) payload "".

(** Nesting depth of a value. *)
Fixpoint depth (v : value) : nat :=
  match v with
  | VList l => S (fold_right (fun x m => Nat.max (depth x) m) 0%nat l)
  | VDict d =>
      S (fold_right (fun (kv : string * value) m => Nat.max (let (_, x) := kv in depth x) m)
           0%nat d)
  | _ => 0
  end.

(** * Definitions used in the statements *)

(** The two checks of [_validate_timezone], each on its own. *)
Definition timezone_offset_errors (d : list (string * value)) (p : string)
  : list ValidationError :=
  match str_get "offset" d with
  | None => [mkError (p ++ ".offset") "Missing required field" None None]
  | Some off =>
      if _is_valid_int16 off then []
      else [mkError (p ++ ".offset") "Invalid type"
              (Some "integer (-32768 to 32767)") (Some (type_name off))]
  end.

Definition timezone_dst_errors (d : list (string * value)) (p : string)
  : list ValidationError :=
  match str_get "daylightSavingInOffset" d with
  | None => [mkError (p ++ ".daylightSavingInOffset") "Missing required field" None None]
  | Some dst =>
      if _is_valid_boolean dst then []
      else [mkError (p ++ ".daylightSavingInOffset") "Invalid type"
              (Some "boolean") (Some (type_name dst))]
  end.

(** The names of the table without their prefix. *)
Definition bare_type_names : list string :=
  ["Boolean"; "Int16"; "Int32"; "Int64"; "UInt16"; "UInt32"; "UInt64"; "Float";
   "Double"; "String"; "DateTime"; "UtcTime"; "Guid"; "TimeZoneDataType"].

(** The rule in words: an entry matches when its key occurs in the
    reference or the reference occurs in its key; the first matching
    entry, in the order of the mapping, is taken. *)
Definition ref_matches (profile_ref : string) (entry : string * Profile) : bool :=
  str_in (fst entry) profile_ref || str_in profile_ref (fst entry).

Definition first_matching_profile (items : list (string * Profile)) (profile_ref : string)
  : option Profile :=
  option_map snd (find (ref_matches profile_ref) items).

(** The path [validate] computes for a field. *)
Definition field_path (path_prefix : string) (field_name : option string) : string :=
  if truthy (VStr path_prefix)
  then path_prefix ++ "." ++ key_str field_name
  else key_str field_name.

(** The path of the element at index [i]. *)
Definition item_path (p : string) (i : nat) : string :=
  p ++ "[" ++ str_of_nat i ++ "]".

Definition extend (errs : list ValidationError) (o : option (list ValidationError))
  : option (list ValidationError) :=
  option_map (app errs) o.

Definition expected_array_error (p : string) (v : value) : ValidationError :=
  mkError p "Expected array" (Some "array") (Some (type_name v)).

(** The scenario of the array dispatch: a profile with the array field
    [Items] and the payload [{"Items": "not-an-array"}]. *)
Definition items_field : FieldDef :=
  mkField None (Some "Items")
    (Some (mkDataType None (Some "urn:example:ItemV1"))) (Some true).

Definition items_profile : Profile :=
  mkProfile None [] [items_field] (Some "urn:example:OrderV1") [].

Section NestedOnlyDefs.
Variable rec : ProfileValidator -> value -> string -> option ValidationResult.

(** The loop over the elements when every element goes to the nested
    validation. *)
Fixpoint nested_items_loop (self : ProfileValidator) (ref p : string)
  (items : list value) (i : nat) (errs : list ValidationError)
  : option (list ValidationError) :=
  match items with
  | [] => Some errs
  | item :: rest =>
      match _validate_nested_profile rec self item ref (item_path p i) with
      | Some es => nested_items_loop self ref p rest (S i) (errs ++ es)%list
      | None => None
      end
  end.

(** The iteration for a field, written with the nested validation as
    the only check of a value. *)
Definition nested_only_field (self : ProfileValidator) (d : list (string * value))
  (prefix : string) (name : option string) (is_array : bool) (ref : string)
  (errs : list ValidationError) : option (list ValidationError) :=
  match key_get name d with
  | None => Some errs
  | Some v =>
      if is_array
      then match v with
           | VList items => nested_items_loop self ref (field_path prefix name) items 0 errs
           | _ => Some (errs ++ [expected_array_error (field_path prefix name) v])%list
           end
      else extend errs (_validate_nested_profile rec self v ref (field_path prefix name))
  end.

End NestedOnlyDefs.

(** A field with the type [opc:Int32] and a reference to a profile. *)
Definition both_field (ref : string) : FieldDef :=
  mkField None (Some "Count") (Some (mkDataType (Some "opc:Int32") (Some ref))) None.

Definition both_profile (ref : string) : Profile :=
  mkProfile None [] [both_field ref] None [].

(** The errors of a field whose reference [ref] matches no entry. *)
Definition unresolved_field_errors (is_array : bool) (ref p : string) (v : value)
  : list ValidationError :=
  if is_array
  then match v with
       | VList items =>
           map (fun i => not_loaded_error ref (item_path p i)) (seq 0 (List.length items))
       | _ => [expected_array_error p v]
       end
  else [not_loaded_error ref p].

(** A field that is not an array field, with a reference that is not
    loaded. *)
Definition unit_field : FieldDef :=
  mkField None (Some "Unit") (Some (mkDataType None (Some "urn:example:UnitV1"))) None.

Definition unit_profile : Profile :=
  mkProfile None [] [unit_field] (Some "urn:example:OrderV1") [].

(** Profile A has a field [b] that refers to profile B, and profile B a
    field [a] that refers to profile A; both are loaded. *)
Definition cycle_A : Profile :=
  mkProfile None []
    [mkField None (Some "b") (Some (mkDataType None (Some "urn:example:B"))) None]
    (Some "urn:example:A") [].

Definition cycle_B : Profile :=
  mkProfile None []
    [mkField None (Some "a") (Some (mkDataType None (Some "urn:example:A"))) None]
    (Some "urn:example:B") [].

Definition cycle_profiles : list (string * Profile) :=
  [("urn:example:A", cycle_A); ("urn:example:B", cycle_B)].

Definition cycle_validator (a : bool) : ProfileValidator :=
  new_ProfileValidator (if a then cycle_A else cycle_B) (Some cycle_profiles).

(** A payload of depth [n] that follows the cycle: [{"b": {"a": {"b":
    ... None}}}]. *)
Fixpoint chain (a : bool) (n : nat) : value :=
  match n with
  | O => VNone
  | S m => VDict [(if a then "b" else "a", chain (negb a) m)]
  end.

Definition typed_attribute (name opc_type : string) : FieldDef :=
  mkField None (Some name) (Some (mkDataType (Some opc_type) None)) None.

Definition workorder_profile : Profile :=
  mkProfile None []
    [typed_attribute "WorkOrderNumber" "opc:Int32";
     typed_attribute "TimeZone" "opc:TimeZoneDataType";
     typed_attribute "StartTimeUTC" "opc:UtcTime";
     typed_attribute "Quantity" "opc:Double"]
    (Some "https://www.github.com/eukodyne/cesmii/smprofiles/WorkOrderV1") [].

(** ** Shapes of strings and patterns *)

(** No character of the string is a newline. *)
Fixpoint no_newline (s : string) : bool :=
  match s with
  | EmptyString => true
  | String c s' => negb (Ascii.eqb c newline) && no_newline s'
  end.

(** The string made of one newline. *)
Definition newline_str : string := String newline EmptyString.

(** A pattern of literals and counted classes only matches a prefix of
    one length, its [width]. *)
Definition fixed_item (it : re_item) : bool :=
  match it with
  | Rep _ _ | Lit _ => true
  | DotStar | Dollar => false
  end.

Definition item_width (it : re_item) : nat :=
  match it with
  | Rep _ n => n
  | Lit _ => 1
  | DotStar | Dollar => 0
  end.

Definition width (pat : list re_item) : nat :=
  fold_right (fun it w => (item_width it + w)%nat) 0%nat pat.

(** The end of the UtcTime pattern, [.*Z$], and the GUID pattern without
    its final [$]. *)
Definition utctime_tail : list re_item := [DotStar; Lit "Z"; Dollar].

Definition guid_body : list re_item :=
  [Rep is_hex 8; Lit "-"; Rep is_hex 4; Lit "-"; Rep is_hex 4; Lit "-";
   Rep is_hex 4; Lit "-"; Rep is_hex 12].

(** Upper case of the letters [a] to [z]; other characters are kept. *)
Definition ascii_upper (c : ascii) : ascii :=
  let n := nat_of_ascii c in
  if ((97 <=? n) && (n <=? 122))%nat then ascii_of_nat (n - 32) else c.

Fixpoint str_map (f : ascii -> ascii) (s : string) : string :=
  match s with
  | EmptyString => EmptyString
  | String c s' => String (f c) (str_map f s')
  end.

(** Every character of the string is in the class. *)
Fixpoint str_forall (cls : ascii -> bool) (s : string) : bool :=
  match s with
  | EmptyString => true
  | String c s' => cls c && str_forall cls s'
  end.

(** A character map that the items of a pattern do not tell apart from
    the identity. *)
Definition item_respects (f : ascii -> ascii) (it : re_item) : Prop :=
  match it with
  | Rep cls _ => forall c, cls (f c) = cls c
  | Lit l => forall c, Ascii.eqb l (f c) = Ascii.eqb l c
  | DotStar | Dollar => True
  end.

(** ** The definitions a profile declares *)

(** The list [_parse_profile] reads the definitions from, and the name
    it files a definition under: [cesmii:fields] and [cesmii:fieldName]
    for a DataType profile, [cesmii:attributes] and [cesmii:browseName]
    otherwise. *)
Definition profile_defs (profile : Profile) : list FieldDef :=
  if get_default (cesmii_isDataType profile) false
  then cesmii_fields profile
  else cesmii_attributes profile.

Definition def_name (profile : Profile) (fd : FieldDef) : option string :=
  if get_default (cesmii_isDataType profile) false
  then cesmii_fieldName fd
  else cesmii_browseName fd.

(** ** What a field declares *)

(** The type identifier and the reference under ["cesmii:dataType"], and
    the type [validate] settles on: the one of the field when it is not
    empty, else the one of the context. *)
Definition declared_opc_type (fd : FieldDef) : option string :=
  match cesmii_dataType fd with Some dt => dt_id dt | None => None end.

Definition declared_ref (fd : FieldDef) : option string :=
  match cesmii_dataType fd with Some dt => cesmii_profileReference dt | None => None end.

Definition resolved_opc_type (self : ProfileValidator) (name : option string)
  (fd : FieldDef) : option string :=
  if negb (truthy_str (declared_opc_type fd))
  then _get_type_from_context self name
  else declared_opc_type fd.

(** The identifiers for which [_validate_opc_type] has a check. *)
Definition known_type (t : string) : bool :=
  match str_get t OPC_TYPE_VALIDATORS with
  | Some _ => true
  | None => t =? "opc:TimeZoneDataType"
  end.

(** Two payloads have the same value, or none, under every name of a
    table of fields. *)
Definition agree_on (flds : list (option string * FieldDef))
  (d1 d2 : list (string * value)) : Prop :=
  Forall (fun fld => key_get (fst fld) d1 = key_get (fst fld) d2) flds.

(** The errors of the elements of a list checked against the type [t],
    from index [i] on. *)
Fixpoint opc_items_errors (t p : string) (items : list value) (i : nat)
  : list ValidationError :=
  match items with
  | [] => []
  | item :: rest =>
      (_validate_opc_type item t (item_path p i) ++ opc_items_errors t p rest (S i))%list
  end.

(** The path of an error lies at or under [root]. *)
Definition rooted (root : string) (e : ValidationError) : Prop :=
  exists suffix, path e = root ++ suffix.

(** ** Texts of errors and results *)

(** [ValidationError.__str__] *)
Definition ValidationError_str (e : ValidationError) : string :=
  let msg := path e ++ ": " ++ message e in
  if truthy_str (expected e) && truthy_str (actual e)
  then msg ++ " (expected: " ++ get_default (expected e) ""
           ++ ", got: " ++ get_default (actual e) "" ++ ")"
  else msg.

(** [ValidationResult.__str__] *)
Definition ValidationResult_str (r : ValidationResult) : string :=
  if valid r
  then "Valid"
  else "Invalid: " ++ str_of_nat (List.length (errors r)) ++ " error(s)" ++ newline_str
       ++ String.concat newline_str (map (fun e => "  - " ++ ValidationError_str e) (errors r)).

(** * Properties *)

Unset Implicit Arguments.

(** ** Values and their depth *)

Lemma depth_item (l : list value) (x : value) :
  In x l -> depth x < depth (VList l).
Proof.
  simpl. induction l as [|y l IH]; simpl; [tauto|].
  intros [->|H]; [lia|]. specialize (IH H). lia.
Qed.

Lemma depth_entry (d : list (string * value)) (k : string) (x : value) :
  str_get k d = Some x -> depth x < depth (VDict d).
Proof.
  unfold str_get. simpl. induction d as [|[k' y] d IH]; simpl; [discriminate|].
  destruct (k =? k').
  - intros [= ->]. lia.
  - intros H. specialize (IH H). lia.
Qed.

(** ** Enough fuel gives a result

    The recursive calls of [validate] are made on the value of a field of
    the payload or on an element of such a value, hence on values of a
    smaller depth. *)

Section BodyTotal.
Variable validate_rec : ProfileValidator -> value -> string -> option ValidationResult.
Variable bound : nat.
Hypothesis rec_total :
  forall self v p, depth v < bound -> exists r, validate_rec self v p = Some r.

Lemma _validate_nested_profile_total self v ref p :
  depth v < bound ->
  exists es, _validate_nested_profile validate_rec self v ref p = Some es.
Proof.
  intros Hd. unfold _validate_nested_profile.
  destruct (find_ref_profile _ _) as [rp|]; [|eauto].
  destruct (rec_total (new_ProfileValidator rp (Some (referenced_profiles self))) v p Hd)
    as [r ->].
  eauto.
Qed.

Lemma check_value_total self ref ty v p errs :
  depth v < bound ->
  exists es, check_value validate_rec self ref ty v p errs = Some es.
Proof.
  intros Hd. unfold check_value.
  destruct (truthy_str ref).
  - destruct (_validate_nested_profile_total self v (get_default ref "") p Hd) as [es ->].
    eauto.
  - destruct (truthy_str ty); eauto.
Qed.

Lemma items_loop_total self ref ty p items :
  (forall x, In x items -> depth x < bound) ->
  forall i errs, exists es,
    items_loop validate_rec self ref ty p items i errs = Some es.
Proof.
  induction items as [|item rest IH]; intros Hd i errs; cbn [items_loop]; [eauto|].
  destruct (check_value_total self ref ty item (p ++ "[" ++ str_of_nat i ++ "]") errs
              (Hd item (or_introl eq_refl))) as [es ->].
  apply IH. intros x Hx. apply Hd. now right.
Qed.

Lemma validate_field_total self d prefix fld errs :
  depth (VDict d) <= bound ->
  exists es, validate_field validate_rec self d prefix fld errs = Some es.
Proof.
  intros Hd. destruct fld as [name fd]. unfold validate_field.
  destruct (key_get name d) as [v|] eqn:Hget; [|eauto].
  assert (Hv : depth v < bound).
  { destruct name as [s|]; [|discriminate].
    apply depth_entry in Hget. lia. }
  destruct (get_default (cesmii_isArray fd) false).
  - destruct v as [| | | | |items|]; eauto.
    apply items_loop_total. intros x Hx. apply depth_item in Hx. lia.
  - now apply check_value_total.
Qed.

Lemma fields_loop_total self d prefix flds :
  depth (VDict d) <= bound ->
  forall errs, exists es,
    fields_loop validate_rec self d prefix flds errs = Some es.
Proof.
  intros Hd. induction flds as [|fld rest IH]; intros errs; cbn [fields_loop]; [eauto|].
  destruct (validate_field_total self d prefix fld errs Hd) as [es ->].
  apply IH.
Qed.

Lemma validate_body_total self payload prefix :
  depth payload <= bound ->
  exists r, validate_body validate_rec self payload prefix = Some r.
Proof.
  intros Hd. unfold validate_body.
  destruct payload as [| | | | | |d]; eauto.
  destruct (fields_loop_total self d prefix (fields self) Hd []) as [es ->].
  eauto.
Qed.
End BodyTotal.

Lemma validate_enough_fuel (fuel : nat) :
  forall self payload prefix,
    depth payload < fuel -> exists r, validate fuel self payload prefix = Some r.
Proof.
  induction fuel as [|fuel IH]; intros self payload prefix Hd; [lia|].
  simpl. apply validate_body_total with (bound := fuel); [exact IH | lia].
Qed.

(** ** More fuel does not change a result *)

Section BodyMono.
Variables rec1 rec2 : ProfileValidator -> value -> string -> option ValidationResult.
Hypothesis rec_mono : forall self v p r, rec1 self v p = Some r -> rec2 self v p = Some r.

Lemma _validate_nested_profile_mono self v ref p es :
  _validate_nested_profile rec1 self v ref p = Some es ->
  _validate_nested_profile rec2 self v ref p = Some es.
Proof.
  unfold _validate_nested_profile.
  destruct (find_ref_profile _ _) as [rp|]; [|auto].
  destruct (rec1 _ v p) as [r|] eqn:H1; [|discriminate].
  now rewrite (rec_mono _ _ _ _ H1).
Qed.

Lemma check_value_mono self ref ty v p errs es :
  check_value rec1 self ref ty v p errs = Some es ->
  check_value rec2 self ref ty v p errs = Some es.
Proof.
  unfold check_value. destruct (truthy_str ref); [|auto].
  destruct (_validate_nested_profile rec1 _ _ _ _) as [es1|] eqn:H1; [|discriminate].
  now rewrite (_validate_nested_profile_mono _ _ _ _ _ H1).
Qed.

Lemma items_loop_mono self ref ty p items :
  forall i errs es,
    items_loop rec1 self ref ty p items i errs = Some es ->
    items_loop rec2 self ref ty p items i errs = Some es.
Proof.
  induction items as [|item rest IH]; intros i errs es; cbn [items_loop]; [auto|].
  destruct (check_value rec1 _ _ _ _ _ _) as [e1|] eqn:H1; [|discriminate].
  rewrite (check_value_mono _ _ _ _ _ _ _ H1). apply IH.
Qed.

Lemma validate_field_mono self d prefix fld errs es :
  validate_field rec1 self d prefix fld errs = Some es ->
  validate_field rec2 self d prefix fld errs = Some es.
Proof.
  destruct fld as [name fd]. unfold validate_field.
  destruct (key_get name d) as [v|]; [|auto].
  destruct (get_default (cesmii_isArray fd) false).
  - destruct v; auto. apply items_loop_mono.
  - apply check_value_mono.
Qed.

Lemma fields_loop_mono self d prefix flds :
  forall errs es,
    fields_loop rec1 self d prefix flds errs = Some es ->
    fields_loop rec2 self d prefix flds errs = Some es.
Proof.
  induction flds as [|fld rest IH]; intros errs es; cbn [fields_loop]; [auto|].
  destruct (validate_field rec1 _ _ _ _ _) as [e1|] eqn:H1; [|discriminate].
  rewrite (validate_field_mono _ _ _ _ _ _ H1). apply IH.
Qed.

Lemma validate_body_mono self payload prefix r :
  validate_body rec1 self payload prefix = Some r ->
  validate_body rec2 self payload prefix = Some r.
Proof.
  unfold validate_body. destruct payload; auto.
  destruct (fields_loop rec1 _ _ _ _ _) as [e1|] eqn:H1; [|discriminate].
  now rewrite (fields_loop_mono _ _ _ _ _ _ H1).
Qed.
End BodyMono.

Lemma validate_fuel_S (fuel : nat) :
  forall self payload prefix r,
    validate fuel self payload prefix = Some r ->
    validate (S fuel) self payload prefix = Some r.
Proof.
  induction fuel as [|fuel IH]; intros self payload prefix r; [discriminate|].
  intros H. change (validate (S (S fuel))) with (validate_body (validate (S fuel))).
  apply validate_body_mono with (rec1 := validate fuel); [exact IH | exact H].
Qed.

Lemma validate_fuel_le (fuel fuel' : nat) self payload prefix r :
  fuel <= fuel' ->
  validate fuel self payload prefix = Some r ->
  validate fuel' self payload prefix = Some r.
Proof.
  induction 1 as [|m Hle IH]; [auto|].
  intros H. apply validate_fuel_S. auto.
Qed.

(** Two runs that both return agree on the result. *)
Lemma validate_deterministic (f1 f2 : nat) self payload prefix r1 r2 :
  validate f1 self payload prefix = Some r1 ->
  validate f2 self payload prefix = Some r2 ->
  r1 = r2.
Proof.
  intros H1 H2.
  apply (validate_fuel_le _ (Nat.max f1 f2)) in H1; [|lia].
  apply (validate_fuel_le _ (Nat.max f1 f2)) in H2; [|lia].
  congruence.
Qed.

(** ** The validity flag *)

Lemma validate_body_valid rec self payload prefix r :
  validate_body rec self payload prefix = Some r ->
  valid r = (List.length (errors r) =? 0)%nat
  /\ match payload with
     | VDict _ => True
     | _ => valid r = false /\ List.length (errors r) = 1%nat
     end.
Proof.
  unfold validate_body.
  destruct payload; try (intros [= <-]; simpl; auto).
  destruct (fields_loop _ _ _ _ _ _) as [es|]; [|discriminate].
  intros [= <-]. simpl. auto.
Qed.

(** C1. Whatever the payload and the path prefix, [validate] returns a
    result (with [depth payload + 1] nested calls allowed; a run with
    another allowance returns the same result or exceeds the allowance),
    and in that result [valid] is true exactly when the list of errors is
    empty.  For a payload that is not an object this is the early return:
    [valid] is false and there is exactly one error. *)
Theorem validate_valid_iff_no_errors (self : ProfileValidator) (payload : value)
  (prefix : string) :
  exists r,
    validate (S (depth payload)) self payload prefix = Some r
    /\ (forall fuel,
          validate fuel self payload prefix = None
          \/ validate fuel self payload prefix = Some r)
    /\ valid r = (List.length (errors r) =? 0)%nat
    /\ match payload with
       | VDict _ => True
       | _ => valid r = false /\ List.length (errors r) = 1%nat
       end.
Proof.
  destruct (validate_enough_fuel (S (depth payload)) self payload prefix) as [r Hr]; [lia|].
  exists r. split; [exact Hr|]. split.
  - intros fuel. destruct (validate fuel self payload prefix) as [r'|] eqn:H'; [|auto].
    right. f_equal. exact (validate_deterministic _ _ _ _ _ _ _ H' Hr).
  - apply (validate_body_valid (validate (depth payload)) self payload prefix). exact Hr.
Qed.

(** ** Booleans and the integer types *)

(** C2. The six integer validators accept both booleans, because
    [isinstance(True, int)] holds in Python and 0 and 1 lie in every
    range; so [_validate_opc_type] reports no error for a boolean checked
    against an integer type. *)
Theorem int_validators_accept_booleans (b : bool) (p : string) :
  _is_valid_int16 (VBool b) = true /\ _is_valid_int32 (VBool b) = true
  /\ _is_valid_int64 (VBool b) = true /\ _is_valid_uint16 (VBool b) = true
  /\ _is_valid_uint32 (VBool b) = true /\ _is_valid_uint64 (VBool b) = true
  /\ Forall (fun opc_type => _validate_opc_type (VBool b) opc_type p = [])
       ["opc:Int16"; "opc:Int32"; "opc:Int64"; "opc:UInt16"; "opc:UInt32"; "opc:UInt64"].
Proof.
  destruct b; repeat split; repeat constructor.
Qed.

(** [True] checked against [opc:Int16] gives no error, where an
    ["Invalid type"] error would report the boolean as rejected. *)
Lemma boolean_passes_int16_check :
  _is_valid_int16 (VBool true) = true
  /\ _validate_opc_type (VBool true) "opc:Int16" "Flag" = []
  /\ _validate_opc_type (VBool true) "opc:Int16" "Flag"
     <> [mkError "Flag" "Invalid type" (Some "integer (-32768 to 32767)") (Some "bool")].
Proof.
  repeat split. discriminate.
Qed.

(** ** TimeZoneDataType *)

(** C7. On an object, [_validate_timezone] returns the errors of the
    offset check followed by those of the daylight-saving check, each
    computed whatever the other found; for
    [{"offset": 99999, "daylightSavingInOffset": false}] that is exactly
    one error, at the offset sub-path, and none for
    [daylightSavingInOffset]. *)
Theorem timezone_checks_independent (p : string) :
  (forall d,
      _validate_timezone (VDict d) p
      = (timezone_offset_errors d p ++ timezone_dst_errors d p)%list)
  /\ (let tz := [("offset", VInt 99999); ("daylightSavingInOffset", VBool false)] in
      _validate_timezone (VDict tz) p
      = [mkError (p ++ ".offset") "Invalid type"
           (Some "integer (-32768 to 32767)") (Some "int")]
      /\ timezone_dst_errors tz p = []
      /\ _validate_opc_type (VDict tz) "opc:TimeZoneDataType" p
         = _validate_timezone (VDict tz) p).
Proof.
  split.
  - intros d. unfold _validate_timezone, timezone_offset_errors, timezone_dst_errors.
    destruct (str_get "offset" d) as [off|];
      destruct (str_get "daylightSavingInOffset" d) as [dst|];
      try destruct (_is_valid_int16 off); try destruct (_is_valid_boolean dst);
      reflexivity.
  - repeat split.
Qed.

(** ** Date and time strings *)

(** C8. ["2026-01-16T14:02:37Z"] is a valid UtcTime; without the final
    [Z] the string is not a valid UtcTime but is a valid DateTime. *)
Theorem utc_suffix_scenario :
  _is_valid_utctime (VStr "2026-01-16T14:02:37Z") = true
  /\ _is_valid_utctime (VStr "2026-01-16T14:02:37") = false
  /\ _is_valid_datetime (VStr "2026-01-16T14:02:37") = true.
Proof.
  repeat split.
Qed.

(** ** Type identifiers *)

Lemma _validate_opc_type_unknown v opc_type p :
  str_get opc_type OPC_TYPE_VALIDATORS = None ->
  opc_type <> "opc:TimeZoneDataType" ->
  _validate_opc_type v opc_type p = [].
Proof.
  intros Hget Hne. unfold _validate_opc_type. rewrite Hget.
  destruct (String.eqb_spec opc_type "opc:TimeZoneDataType"); [contradiction|reflexivity].
Qed.

Lemma str_get_In (V : Type) (k : string) (d : list (string * V)) :
  str_get k d = None \/ In k (map fst d).
Proof.
  unfold str_get. induction d as [|[k' x] d IH]; simpl; [auto|].
  destruct (String.eqb_spec k k'); [subst; auto|]. destruct IH; auto.
Qed.

(** C10. [_validate_opc_type] runs a validator only for an identifier
    that is a key of the table, all of which carry the prefix [opc:], or
    for [opc:TimeZoneDataType]; any other identifier gives no error.  In
    particular the names without the prefix ([Int16], [Boolean], ...)
    give no error for any value. *)
Theorem unprefixed_type_names_pass (v : value) (p : string) :
  (forall opc_type,
      _validate_opc_type v opc_type p = []
      \/ In opc_type (map fst OPC_TYPE_VALIDATORS)
      \/ opc_type = "opc:TimeZoneDataType")
  /\ Forall (fun key => str_prefix "opc:" key = true) (map fst OPC_TYPE_VALIDATORS)
  /\ Forall (fun name => _validate_opc_type v name p = []) bare_type_names.
Proof.
  split; [|split].
  - intros t. destruct (String.eqb_spec t "opc:TimeZoneDataType") as [->|Hne]; [auto|].
    destruct (str_get_In _ t OPC_TYPE_VALIDATORS) as [Hget|Hin]; [|auto].
    left. now apply _validate_opc_type_unknown.
  - repeat constructor.
  - repeat constructor.
Qed.

(** ** Substrings *)

Lemma prefix_app (s t : string) : str_prefix s (s ++ t) = true.
Proof.
  induction s as [|c s IH]; simpl; [reflexivity|].
  now rewrite Ascii.eqb_refl.
Qed.

Lemma prefix_inv (s h : string) :
  str_prefix s h = true -> exists t, h = s ++ t.
Proof.
  revert h. induction s as [|c s IH]; intros h; simpl.
  - intros _. now exists h.
  - destruct h as [|c' h]; [discriminate|].
    destruct (Ascii.eqb_spec c c') as [->|]; [|discriminate].
    intros H. destruct (IH h H) as [t ->]. now exists t.
Qed.

(** [str_in needle hay] holds exactly when [needle] occurs in [hay]. *)
Lemma str_in_spec (needle hay : string) :
  str_in needle hay = true <-> exists a b, hay = a ++ needle ++ b.
Proof.
  split.
  - induction hay as [|c hay IH]; simpl.
    + rewrite orb_false_r. intros H. apply prefix_inv in H as [t Ht].
      now exists "", t.
    + intros H. apply orb_true_iff in H as [H|H].
      * apply prefix_inv in H as [t Ht]. now exists "", t.
      * destruct (IH H) as (a & b & ->). now exists (String c a), b.
  - intros (a & b & ->). induction a as [|c a IH].
    + simpl ("" ++ _). destruct (needle ++ b) eqn:E; simpl; rewrite <- E, prefix_app;
        reflexivity.
    + change (String c a ++ needle ++ b) with (String c (a ++ needle ++ b)).
      simpl. rewrite IH. apply orb_true_r.
Qed.

Lemma str_in_refl (s : string) : str_in s s = true.
Proof.
  apply str_in_spec. exists "", "". simpl.
  induction s as [|c s IH]; simpl; congruence.
Qed.

Lemma str_in_app_r (a s : string) : str_in s (a ++ s) = true.
Proof.
  apply str_in_spec. exists a, "".
  f_equal. induction s as [|c s IH]; simpl; congruence.
Qed.

(** ** Resolution of a profile reference *)

Lemma find_ref_profile_first (items : list (string * Profile)) (profile_ref : string) :
  find_ref_profile items profile_ref = first_matching_profile items profile_ref.
Proof.
  unfold first_matching_profile.
  induction items as [|[ns pr] items IH]; simpl; [reflexivity|].
  unfold ref_matches at 1. simpl.
  destruct (str_in ns profile_ref || str_in profile_ref ns); [reflexivity | exact IH].
Qed.

Lemma find_ref_profile_split (before after : list (string * Profile))
  (ns : string) (pr : Profile) (profile_ref : string) :
  forallb (fun e => negb (ref_matches profile_ref e)) before = true ->
  ref_matches profile_ref (ns, pr) = true ->
  find_ref_profile (before ++ (ns, pr) :: after) profile_ref = Some pr.
Proof.
  intros Hb Hm. induction before as [|[ns' pr'] before IH]; simpl in *.
  - unfold ref_matches in Hm. simpl in Hm. now rewrite Hm.
  - apply andb_true_iff in Hb as [H1 H2].
    unfold ref_matches in H1. simpl in H1. apply negb_true_iff in H1.
    rewrite H1. auto.
Qed.

(** C6. The search of [_validate_nested_profile] returns the profile of
    the first entry, in the order of the mapping, whose key occurs in
    the reference or in whose key the reference occurs; the entries
    after it play no part, and an entry need not be equal to the
    reference to match.  The nested validation runs on that profile. *)
Theorem nested_profile_first_substring_match (items : list (string * Profile))
  (profile_ref : string) :
  find_ref_profile items profile_ref = first_matching_profile items profile_ref
  /\ (forall e,
        ref_matches profile_ref e = true
        <-> (exists a b, profile_ref = a ++ fst e ++ b)
            \/ (exists a b, fst e = a ++ profile_ref ++ b))
  /\ (forall before ns pr after,
        items = (before ++ (ns, pr) :: after)%list ->
        forallb (fun e => negb (ref_matches profile_ref e)) before = true ->
        ref_matches profile_ref (ns, pr) = true ->
        find_ref_profile items profile_ref = Some pr)
  /\ (forall rec self v p,
        referenced_profiles self = items ->
        _validate_nested_profile rec self v profile_ref p
        = match first_matching_profile items profile_ref with
          | Some pr =>
              option_map errors (rec (new_ProfileValidator pr (Some items)) v p)
          | None => Some [not_loaded_error profile_ref p]
          end).
Proof.
  split; [apply find_ref_profile_first|]. split; [|split].
  - intros e. unfold ref_matches. rewrite orb_true_iff, !str_in_spec. reflexivity.
  - intros before ns pr after -> Hb Hm. now apply find_ref_profile_split.
  - intros rec self v p <-. unfold _validate_nested_profile.
    rewrite find_ref_profile_first.
    destruct (first_matching_profile _ _) as [pr|]; [|reflexivity].
    destruct (rec _ v p); reflexivity.
Qed.

Lemma nested_profile_first_substring_match_witness :
  find_ref_profile cycle_profiles "urn:example:B/fields" = Some cycle_B.
Proof.
  exact (proj1 (proj2 (proj2 (nested_profile_first_substring_match
                                cycle_profiles "urn:example:B/fields")))
           [("urn:example:A", cycle_A)] "urn:example:B" cycle_B []
           eq_refl eq_refl eq_refl).
Defined.

(** ** The error list only grows, field by field *)

Lemma extend_extend errs es o :
  extend errs (extend es o) = extend (errs ++ es)%list o.
Proof.
  destruct o; simpl; [|reflexivity]. now rewrite app_assoc.
Qed.

Section Accumulate.
Variable rec : ProfileValidator -> value -> string -> option ValidationResult.

Lemma check_value_acc self ref ty v p errs :
  check_value rec self ref ty v p errs
  = extend errs (check_value rec self ref ty v p []).
Proof.
  unfold check_value.
  destruct (truthy_str ref).
  - destruct (_validate_nested_profile rec self v _ p); reflexivity.
  - destruct (truthy_str ty); simpl; [reflexivity|]. now rewrite app_nil_r.
Qed.

Lemma items_loop_acc self ref ty p items :
  forall i errs,
    items_loop rec self ref ty p items i errs
    = extend errs (items_loop rec self ref ty p items i []).
Proof.
  induction items as [|item rest IH]; intros i errs; cbn [items_loop].
  - simpl. now rewrite app_nil_r.
  - rewrite check_value_acc.
    destruct (check_value rec self ref ty item _ []) as [es|]; simpl; [|reflexivity].
    rewrite IH, (IH (S i) es). apply eq_sym, extend_extend.
Qed.

Lemma validate_field_acc self d prefix fld errs :
  validate_field rec self d prefix fld errs
  = extend errs (validate_field rec self d prefix fld []).
Proof.
  destruct fld as [name fd]. unfold validate_field.
  destruct (key_get name d) as [v|]; [|simpl; now rewrite app_nil_r].
  destruct (get_default (cesmii_isArray fd) false).
  - destruct v; try reflexivity. apply items_loop_acc.
  - apply check_value_acc.
Qed.

Lemma fields_loop_acc self d prefix flds :
  forall errs,
    fields_loop rec self d prefix flds errs
    = extend errs (fields_loop rec self d prefix flds []).
Proof.
  induction flds as [|fld rest IH]; intros errs; cbn [fields_loop].
  - simpl. now rewrite app_nil_r.
  - rewrite validate_field_acc.
    destruct (validate_field rec self d prefix fld []) as [es|]; simpl; [|reflexivity].
    rewrite IH, (IH es). apply eq_sym, extend_extend.
Qed.

(** The errors of a run over the fields are those of the fields before
    a given one, then those of that field, then those of the fields
    after it. *)
Lemma fields_loop_split self d prefix flds1 fld flds2 es :
  fields_loop rec self d prefix (flds1 ++ fld :: flds2)%list [] = Some es ->
  exists es1 es0 es2,
    fields_loop rec self d prefix flds1 [] = Some es1
    /\ validate_field rec self d prefix fld [] = Some es0
    /\ fields_loop rec self d prefix flds2 [] = Some es2
    /\ es = (es1 ++ es0 ++ es2)%list.
Proof.
  revert es. induction flds1 as [|f flds1 IH]; intros es.
  - cbn [app fields_loop].
    destruct (validate_field rec self d prefix fld []) as [es0|]; [|discriminate].
    rewrite fields_loop_acc.
    destruct (fields_loop rec self d prefix flds2 []) as [es2|]; [|discriminate].
    intros [= <-]. exists [], es0, es2. auto.
  - cbn [app fields_loop].
    destruct (validate_field rec self d prefix f []) as [e|]; [|discriminate].
    rewrite fields_loop_acc.
    destruct (fields_loop rec self d prefix (flds1 ++ fld :: flds2) []) as [es'|] eqn:E;
      [|discriminate].
    intros [= <-].
    destruct (IH es' eq_refl) as (es1 & es0 & es2 & H1 & H0 & H2 & ->).
    exists (e ++ es1)%list, es0, es2.
    rewrite fields_loop_acc, H1. simpl. rewrite app_assoc. auto.
Qed.
End Accumulate.

(** The result of [validate] on an object, seen from one of the fields
    of the profile. *)
Lemma validate_errors_split self d prefix flds1 fld flds2 :
  fields self = (flds1 ++ fld :: flds2)%list ->
  exists r es1 es0 es2,
    validate (S (depth (VDict d))) self (VDict d) prefix = Some r
    /\ fields_loop (validate (depth (VDict d))) self d prefix flds1 [] = Some es1
    /\ validate_field (validate (depth (VDict d))) self d prefix fld [] = Some es0
    /\ fields_loop (validate (depth (VDict d))) self d prefix flds2 [] = Some es2
    /\ errors r = (es1 ++ es0 ++ es2)%list
    /\ valid r = (List.length (errors r) =? 0)%nat.
Proof.
  intros Hf.
  destruct (validate_enough_fuel (S (depth (VDict d))) self (VDict d) prefix) as [r Hr];
    [lia|].
  pose proof Hr as Hr'. cbn [validate] in Hr'. unfold validate_body in Hr'.
  destruct (fields_loop _ self d prefix (fields self) []) as [es|] eqn:E; [|discriminate].
  rewrite Hf in E.
  destruct (fields_loop_split _ _ _ _ _ _ _ _ E) as (es1 & es0 & es2 & H1 & H0 & H2 & ->).
  exists r, es1, es0, es2. injection Hr' as <-. simpl. auto 10.
Qed.

(** ** Array fields *)

Lemma validate_field_non_list rec self d prefix name fd v errs :
  cesmii_isArray fd = Some true ->
  key_get name d = Some v ->
  isinstance_list v = false ->
  validate_field rec self d prefix (name, fd) errs
  = Some (errs ++ [expected_array_error (field_path prefix name) v])%list.
Proof.
  intros Ha Hget Hl. unfold validate_field. rewrite Hget, Ha. simpl get_default.
  destruct v; try reflexivity. discriminate.
Qed.

Lemma valid_false_of_error (r : ValidationResult) es1 e es2 :
  errors r = (es1 ++ e :: es2)%list ->
  valid r = (List.length (errors r) =? 0)%nat ->
  valid r = false.
Proof.
  intros -> ->. rewrite length_app. simpl. apply Nat.eqb_neq. lia.
Qed.

(** C5. When a field declared [isArray = true] has a value that is not
    a list, the iteration of [validate] for that field appends exactly
    one error: message ["Expected array"], expected ["array"], actual the
    type name of the value.  The errors of the result are those of the
    fields before, that one error, and those of the fields after; nothing
    is reported for elements. *)
Theorem array_field_non_list_one_error (self : ProfileValidator)
  (d : list (string * value)) (prefix : string)
  (flds1 flds2 : list (option string * FieldDef)) (name : option string)
  (fd : FieldDef) (v : value) :
  fields self = (flds1 ++ (name, fd) :: flds2)%list ->
  cesmii_isArray fd = Some true ->
  key_get name d = Some v ->
  isinstance_list v = false ->
  let e := mkError (field_path prefix name) "Expected array" (Some "array")
             (Some (type_name v)) in
  (forall rec errs,
      validate_field rec self d prefix (name, fd) errs = Some (errs ++ [e])%list)
  /\ exists r es1 es2,
      validate (S (depth (VDict d))) self (VDict d) prefix = Some r
      /\ fields_loop (validate (depth (VDict d))) self d prefix flds1 [] = Some es1
      /\ fields_loop (validate (depth (VDict d))) self d prefix flds2 [] = Some es2
      /\ errors r = (es1 ++ [e] ++ es2)%list
      /\ valid r = false.
Proof.
  intros Hf Ha Hget Hl e. split.
  - intros rec errs. now apply validate_field_non_list.
  - destruct (validate_errors_split self d prefix _ _ _ Hf)
      as (r & es1 & es0 & es2 & Hr & H1 & H0 & H2 & He & Hv).
    rewrite (validate_field_non_list _ self d prefix name fd v [] Ha Hget Hl) in H0.
    injection H0 as <-.
    exists r, es1, es2. repeat split; auto.
    eapply valid_false_of_error; [exact He | exact Hv].
Qed.

Lemma array_field_non_list_one_error_witness :
  let self := new_ProfileValidator items_profile None in
  let d := [("Items", VStr "not-an-array")] in
  let e := mkError "Items" "Expected array" (Some "array") (Some "str") in
  (forall rec errs,
      validate_field rec self d "" (Some "Items", items_field) errs
      = Some (errs ++ [e])%list)
  /\ exists r es1 es2,
      validate (S (depth (VDict d))) self (VDict d) "" = Some r
      /\ fields_loop (validate (depth (VDict d))) self d "" [] [] = Some es1
      /\ fields_loop (validate (depth (VDict d))) self d "" [] [] = Some es2
      /\ errors r = (es1 ++ [e] ++ es2)%list
      /\ valid r = false.
Proof.
  exact (array_field_non_list_one_error
           (new_ProfileValidator items_profile None)
           [("Items", VStr "not-an-array")] "" [] [] (Some "Items") items_field
           (VStr "not-an-array") eq_refl eq_refl eq_refl eq_refl).
Defined.

(** ** Fields with a profile reference *)

Section NestedOnly.
Variable rec : ProfileValidator -> value -> string -> option ValidationResult.

Lemma truthy_str_Some (s : string) : s <> "" -> truthy_str (Some s) = true.
Proof.
  intros H. simpl. now destruct (String.eqb_spec s "").
Qed.

Lemma check_value_ref self ref ty v p errs :
  ref <> "" ->
  check_value rec self (Some ref) ty v p errs
  = extend errs (_validate_nested_profile rec self v ref p).
Proof.
  intros H. unfold check_value. rewrite (truthy_str_Some ref H). simpl get_default.
  destruct (_validate_nested_profile rec self v ref p); reflexivity.
Qed.

Lemma items_loop_ref self ref ty p items :
  ref <> "" ->
  forall i errs,
    items_loop rec self (Some ref) ty p items i errs
    = nested_items_loop rec self ref p items i errs.
Proof.
  intros H. induction items as [|item rest IH]; intros i errs;
    cbn [items_loop nested_items_loop]; [reflexivity|].
  rewrite (check_value_ref self ref ty item _ errs H). fold (item_path p i).
  destruct (_validate_nested_profile rec self item ref (item_path p i)); simpl;
    [apply IH | reflexivity].
Qed.

Lemma validate_field_ref self d prefix name fd dt ref errs :
  cesmii_dataType fd = Some dt ->
  cesmii_profileReference dt = Some ref ->
  ref <> "" ->
  validate_field rec self d prefix (name, fd) errs
  = nested_only_field rec self d prefix name (get_default (cesmii_isArray fd) false) ref errs.
Proof.
  intros Hdt Hr Hne. unfold validate_field, nested_only_field.
  destruct (key_get name d) as [v|]; [|reflexivity].
  rewrite Hdt, Hr.
  destruct (get_default (cesmii_isArray fd) false).
  - destruct v; try reflexivity. now apply items_loop_ref.
  - now apply check_value_ref.
Qed.
End NestedOnly.

(** C4. A field that declares a type identifier and a non-empty profile
    reference is checked by the nested validation only: its value (each
    element, for an array field with a list value) goes to
    [_validate_nested_profile], and what [validate] does for the field
    does not depend on the type identifier, whether it is declared in the
    field or found in the context. *)
Theorem nested_reference_priority
  (rec : ProfileValidator -> value -> string -> option ValidationResult)
  (self : ProfileValidator) (d : list (string * value)) (prefix : string)
  (name : option string) (fd : FieldDef) (dt : DataTypeDef) (ref : string)
  (errs : list ValidationError) :
  cesmii_dataType fd = Some dt ->
  cesmii_profileReference dt = Some ref ->
  ref <> "" ->
  validate_field rec self d prefix (name, fd) errs
  = nested_only_field rec self d prefix name (get_default (cesmii_isArray fd) false) ref errs
  /\ (forall opc_type v p,
        check_value rec self (Some ref) opc_type v p errs
        = extend errs (_validate_nested_profile rec self v ref p)).
Proof.
  intros Hdt Hr Hne. split.
  - now apply validate_field_ref with (dt := dt).
  - intros ty v p. now apply check_value_ref.
Qed.

Lemma nested_reference_priority_witness :
  let self := new_ProfileValidator (both_profile "urn:example:CountV1") None in
  let d := [("Count", VStr "x")] in
  validate_field (validate 0) self d "" (Some "Count", both_field "urn:example:CountV1") []
  = nested_only_field (validate 0) self d "" (Some "Count") false "urn:example:CountV1" []
  /\ (forall opc_type v p,
        check_value (validate 0) self (Some "urn:example:CountV1") opc_type v p []
        = extend [] (_validate_nested_profile (validate 0) self v "urn:example:CountV1" p)).
Proof.
  apply (nested_reference_priority (validate 0)
           (new_ProfileValidator (both_profile "urn:example:CountV1") None)
           [("Count", VStr "x")] "" (Some "Count") (both_field "urn:example:CountV1")
           (mkDataType (Some "opc:Int32") (Some "urn:example:CountV1"))
           "urn:example:CountV1" []);
    [reflexivity | reflexivity | discriminate].
Defined.

(** With an empty reference the field declares both, and its value goes
    to the check of the primitive type: the string ["x"] is reported as
    an invalid [opc:Int32], which is not what the nested validation
    gives. *)
Lemma empty_reference_uses_primitive_check :
  let fd := both_field "" in
  let self := new_ProfileValidator (both_profile "") None in
  let d := [("Count", VStr "x")] in
  (exists dt ty ref,
      cesmii_dataType fd = Some dt /\ dt_id dt = Some ty
      /\ cesmii_profileReference dt = Some ref)
  /\ fields self = [(Some "Count", fd)]
  /\ validate 1 self (VDict d) ""
     = Some (mkResult false
               [mkError "Count" "Invalid type"
                  (Some "integer (-2147483648 to 2147483647)") (Some "str")] [])
  /\ validate_field (validate 0) self d "" (Some "Count", fd) []
     = Some (_validate_opc_type (VStr "x") "opc:Int32" "Count")
  /\ validate_field (validate 0) self d "" (Some "Count", fd) []
     <> nested_only_field (validate 0) self d "" (Some "Count") false "" [].
Proof.
  repeat split.
  - now exists (mkDataType (Some "opc:Int32") (Some "")), "opc:Int32", "".
  - discriminate.
Qed.

(** ** References that resolve to no profile *)

Section Unresolved.
Variable rec : ProfileValidator -> value -> string -> option ValidationResult.
Variable self : ProfileValidator.
Variable ref : string.
Hypothesis no_match : find_ref_profile (referenced_profiles self) ref = None.

Lemma _validate_nested_profile_unresolved v p :
  _validate_nested_profile rec self v ref p = Some [not_loaded_error ref p].
Proof.
  unfold _validate_nested_profile. now rewrite no_match.
Qed.

Lemma nested_items_loop_unresolved p items :
  forall i errs,
    nested_items_loop rec self ref p items i errs
    = Some (errs ++ map (fun j => not_loaded_error ref (item_path p j))
                      (seq i (List.length items)))%list.
Proof.
  induction items as [|item rest IH]; intros i errs; cbn [nested_items_loop].
  - simpl. now rewrite app_nil_r.
  - rewrite _validate_nested_profile_unresolved, IH. simpl.
    now rewrite <- app_assoc.
Qed.

Lemma validate_field_unresolved d prefix name fd dt v errs :
  cesmii_dataType fd = Some dt ->
  cesmii_profileReference dt = Some ref ->
  ref <> "" ->
  key_get name d = Some v ->
  validate_field rec self d prefix (name, fd) errs
  = Some (errs ++ unresolved_field_errors (get_default (cesmii_isArray fd) false) ref
                    (field_path prefix name) v)%list.
Proof.
  intros Hdt Hr Hne Hget.
  rewrite (validate_field_ref rec self d prefix name fd dt ref errs Hdt Hr Hne).
  unfold nested_only_field, unresolved_field_errors. rewrite Hget.
  destruct (get_default (cesmii_isArray fd) false).
  - destruct v; try reflexivity. apply nested_items_loop_unresolved.
  - now rewrite _validate_nested_profile_unresolved.
Qed.
End Unresolved.

Lemma not_loaded_error_message (ref p : string) :
  path (not_loaded_error ref p) = p
  /\ str_in "not loaded" (message (not_loaded_error ref p)) = true
  /\ str_in ref (message (not_loaded_error ref p)) = true.
Proof.
  split; [reflexivity|]. split; [reflexivity|].
  unfold not_loaded_error, message. apply str_in_app_r.
Qed.

(** C3. Let a field carry a non-empty profile reference that no entry of
    [referenced_profiles] matches, and let the payload have a value for
    it.  If the field is not an array field, [validate] reports for it
    exactly one error, at the path of the field, whose message contains
    ["not loaded"] and the reference, and the result is not valid.  If it
    is an array field with a list value there is one such error for each
    element, at the path of the element (none for an empty list); a value
    that is not a list gets the single error ["Expected array"]. *)
Theorem unresolved_reference_errors (self : ProfileValidator)
  (d : list (string * value)) (prefix : string)
  (flds1 flds2 : list (option string * FieldDef)) (name : option string)
  (fd : FieldDef) (dt : DataTypeDef) (ref : string) (v : value) :
  fields self = (flds1 ++ (name, fd) :: flds2)%list ->
  cesmii_dataType fd = Some dt ->
  cesmii_profileReference dt = Some ref ->
  ref <> "" ->
  find_ref_profile (referenced_profiles self) ref = None ->
  key_get name d = Some v ->
  let is_array := get_default (cesmii_isArray fd) false in
  let field_errors := unresolved_field_errors is_array ref (field_path prefix name) v in
  (forall p,
      path (not_loaded_error ref p) = p
      /\ str_in "not loaded" (message (not_loaded_error ref p)) = true
      /\ str_in ref (message (not_loaded_error ref p)) = true)
  /\ (forall rec errs,
        validate_field rec self d prefix (name, fd) errs
        = Some (errs ++ field_errors)%list)
  /\ exists r es1 es2,
      validate (S (depth (VDict d))) self (VDict d) prefix = Some r
      /\ fields_loop (validate (depth (VDict d))) self d prefix flds1 [] = Some es1
      /\ fields_loop (validate (depth (VDict d))) self d prefix flds2 [] = Some es2
      /\ errors r = (es1 ++ field_errors ++ es2)%list
      /\ (is_array || negb (valid r)) = true.
Proof.
  intros Hf Hdt Hr Hne Hnone Hget is_array field_errors.
  split; [apply not_loaded_error_message|]. split.
  - intros rec errs. now apply validate_field_unresolved with (dt := dt).
  - destruct (validate_errors_split self d prefix _ _ _ Hf)
      as (r & es1 & es0 & es2 & Hrun & H1 & H0 & H2 & He & Hv).
    rewrite (validate_field_unresolved _ self ref Hnone d prefix name fd dt v []
               Hdt Hr Hne Hget) in H0.
    injection H0 as <-. fold is_array field_errors in He.
    exists r, es1, es2. repeat split; auto.
    subst field_errors. unfold unresolved_field_errors in He.
    destruct is_array; [reflexivity|]. simpl.
    now rewrite (valid_false_of_error r es1 _ es2 He Hv).
Qed.

Lemma unresolved_reference_errors_witness :
  let self := new_ProfileValidator unit_profile None in
  let d := [("Unit", VStr "kg")] in
  let ref := "urn:example:UnitV1" in
  let field_errors := [not_loaded_error ref "Unit"] in
  (forall p,
      path (not_loaded_error ref p) = p
      /\ str_in "not loaded" (message (not_loaded_error ref p)) = true
      /\ str_in ref (message (not_loaded_error ref p)) = true)
  /\ (forall rec errs,
        validate_field rec self d "" (Some "Unit", unit_field) errs
        = Some (errs ++ field_errors)%list)
  /\ exists r es1 es2,
      validate (S (depth (VDict d))) self (VDict d) "" = Some r
      /\ fields_loop (validate (depth (VDict d))) self d "" [] [] = Some es1
      /\ fields_loop (validate (depth (VDict d))) self d "" [] [] = Some es2
      /\ errors r = (es1 ++ field_errors ++ es2)%list
      /\ (false || negb (valid r)) = true.
Proof.
  apply (unresolved_reference_errors (new_ProfileValidator unit_profile None)
           [("Unit", VStr "kg")] "" [] [] (Some "Unit") unit_field
           (mkDataType None (Some "urn:example:UnitV1")) "urn:example:UnitV1"
           (VStr "kg"));
    [reflexivity | reflexivity | reflexivity | discriminate | reflexivity | reflexivity].
Defined.

(** For an array field the number of errors is the number of elements:
    with the reference of [Items] not loaded, an empty list gives a valid
    result without errors, and a list of two elements gives two errors. *)
Lemma unresolved_reference_on_array_field :
  let self := new_ProfileValidator items_profile None in
  fields self = [(Some "Items", items_field)]
  /\ (exists dt,
        cesmii_dataType items_field = Some dt
        /\ cesmii_profileReference dt = Some "urn:example:ItemV1")
  /\ find_ref_profile (referenced_profiles self) "urn:example:ItemV1" = None
  /\ validate 1 self (VDict [("Items", VList [])]) "" = Some (mkResult true [] [])
  /\ validate 1 self (VDict [("Items", VList [VDict []; VDict []])]) ""
     = Some (mkResult false
               [not_loaded_error "urn:example:ItemV1" "Items[0]";
                not_loaded_error "urn:example:ItemV1" "Items[1]"] []).
Proof.
  repeat split. now exists (mkDataType None (Some "urn:example:ItemV1")).
Qed.

(** ** Profiles that reference each other *)

Lemma depth_chain (n : nat) : forall a, depth (chain a n) = n.
Proof.
  induction n as [|n IH]; intros a; simpl; [reflexivity|].
  rewrite IH. lia.
Qed.

Lemma chain_exceeds (n : nat) :
  forall a p, validate n (cycle_validator a) (chain a n) p = None.
Proof.
  induction n as [|n IH]; intros a p; [reflexivity|].
  cbn [validate chain]. unfold validate_body.
  destruct a; cbn -[validate chain]; unfold _validate_nested_profile;
    cbn -[validate chain].
  - change (new_ProfileValidator cycle_B (Some cycle_profiles)) with (cycle_validator false).
    now rewrite IH.
  - change (new_ProfileValidator cycle_A (Some cycle_profiles)) with (cycle_validator true).
    now rewrite IH.
Qed.

(** C9. [validate] terminates on every payload, whatever the profiles
    and also when they reference each other: a nested call is made on a
    part of the payload, so with [depth payload + 1] nested calls allowed,
    or more, a result is returned.  The number of nested calls has no
    bound that holds for all payloads: for the two profiles above, the
    payload [chain a n] of depth [n] needs more than [n]. *)
Theorem validate_terminates :
  (forall self payload prefix k,
      exists r, validate (S (depth payload) + k) self payload prefix = Some r)
  /\ (forall n a prefix,
        depth (chain a n) = n
        /\ validate n (cycle_validator a) (chain a n) prefix = None
        /\ exists r, validate (S n) (cycle_validator a) (chain a n) prefix = Some r).
Proof.
  split.
  - intros self payload prefix k. apply validate_enough_fuel. lia.
  - intros n a prefix. split; [apply depth_chain|]. split; [apply chain_exceeds|].
    apply validate_enough_fuel. rewrite depth_chain. lia.
Qed.

(** The two profiles reference each other, and no payload makes the
    validation run forever. *)
Lemma cyclic_profiles_no_divergence :
  find_ref_profile cycle_profiles "urn:example:B" = Some cycle_B
  /\ find_ref_profile cycle_profiles "urn:example:A" = Some cycle_A
  /\ fields (cycle_validator true)
     = [(Some "b", mkField None (Some "b")
                     (Some (mkDataType None (Some "urn:example:B"))) None)]
  /\ fields (cycle_validator false)
     = [(Some "a", mkField None (Some "a")
                     (Some (mkDataType None (Some "urn:example:A"))) None)]
  /\ ~ (exists payload prefix,
          forall fuel, validate fuel (cycle_validator true) payload prefix = None).
Proof.
  repeat split.
  intros (payload & prefix & H).
  destruct (validate_enough_fuel (S (depth payload)) (cycle_validator true) payload prefix)
    as [r Hr]; [lia|].
  rewrite H in Hr. discriminate.
Qed.

(** ** Scenarios of the test suite

    The profile declares [WorkOrderNumber] as [opc:Int32], [Quantity] as
    [opc:Double], [StartTimeUTC] as [opc:UtcTime] and [TimeZone] as
    [opc:TimeZoneDataType]. *)

Example test_invalid_int32_string :
  validate_payload 1 (VDict [("WorkOrderNumber", VStr "not-a-number")])
    workorder_profile None
  = Some (mkResult false
            [mkError "WorkOrderNumber" "Invalid type"
               (Some "integer (-2147483648 to 2147483647)") (Some "str")] []).
Proof. reflexivity. Qed.

Example test_valid_double_as_int :
  validate_payload 1 (VDict [("Quantity", VInt 100)]) workorder_profile None
  = Some (mkResult true [] []).
Proof. reflexivity. Qed.

Example test_invalid_utc_time_no_z :
  validate_payload 1 (VDict [("StartTimeUTC", VStr "2026-01-16T14:02:37.789055")])
    workorder_profile None
  = Some (mkResult false
            [mkError "StartTimeUTC" "Invalid type"
               (Some "ISO 8601 UTC time (ending with Z)") (Some "str")] []).
Proof. reflexivity. Qed.

Example test_timezone_missing_dst :
  validate_payload 1 (VDict [("TimeZone", VDict [("offset", VInt (-360))])])
    workorder_profile None
  = Some (mkResult false
            [mkError "TimeZone.daylightSavingInOffset" "Missing required field" None None]
            []).
Proof. reflexivity. Qed.

Example test_timezone_wrong_type :
  validate_payload 1 (VDict [("TimeZone", VStr "America/Chicago")]) workorder_profile None
  = Some (mkResult false
            [mkError "TimeZone" "TimeZoneDataType must be an object"
               (Some "object with offset and daylightSavingInOffset") (Some "str")] []).
Proof. reflexivity. Qed.

(** * Further properties of the validators *)

(** ** Matching, one item at a time *)

Lemma re_match_Rep_0 cls pat s :
  re_match (Rep cls 0 :: pat) s = re_match pat s.
Proof. reflexivity. Qed.

Lemma re_match_Rep_S cls n pat s :
  re_match (Rep cls (S n) :: pat) s
  = match s with
    | String c s' => cls c && re_match (Rep cls n :: pat) s'
    | EmptyString => false
    end.
Proof. destruct s; reflexivity. Qed.

Lemma re_match_Lit c pat s :
  re_match (Lit c :: pat) s
  = match s with
    | String c' s' => Ascii.eqb c c' && re_match pat s'
    | EmptyString => false
    end.
Proof. destruct s; reflexivity. Qed.

Lemma re_match_DotStar pat s :
  re_match (DotStar :: pat) s
  = re_match pat s
    || match s with
       | String c s' => negb (Ascii.eqb c newline) && re_match (DotStar :: pat) s'
       | EmptyString => false
       end.
Proof. destruct s; reflexivity. Qed.

Lemma re_match_Dollar pat s :
  re_match (Dollar :: pat) s
  = match s with
    | EmptyString => re_match pat s
    | String c EmptyString => Ascii.eqb c newline && re_match pat s
    | _ => false
    end.
Proof. destruct s as [|c [|c' s']]; reflexivity. Qed.

(** A fixed pattern followed by [q] matches [s] exactly when [s] splits
    into a part of the width of the pattern matched by it, and a rest
    matched by [q]. *)
Lemma re_match_fixed_split (p q : list re_item) :
  forallb fixed_item p = true ->
  forall s,
    re_match (p ++ q) s = true
    <-> exists a b,
        s = a ++ b /\ String.length a = width p
        /\ re_match p a = true /\ re_match q b = true.
Proof.
  induction p as [|it p IH]; intros Hfix s.
  - simpl. split.
    + intros H. now exists "", s.
    + intros (a & b & -> & Hlen & _ & Hq). destruct a; [exact Hq | discriminate].
  - simpl in Hfix. apply andb_true_iff in Hfix as [Hit Hfix].
    specialize (IH Hfix).
    destruct it as [cls n|c| |]; try discriminate; clear Hit.
    + change (width (Rep cls n :: p)) with (n + width p)%nat.
      change ((Rep cls n :: p) ++ q)%list with (Rep cls n :: p ++ q).
      revert s. induction n as [|n IHn]; intros s.
      * rewrite re_match_Rep_0, IH. split.
        -- intros (a & b & -> & Hlen & Hp & Hq). exists a, b.
           now rewrite re_match_Rep_0.
        -- intros (a & b & -> & Hlen & Hp & Hq). exists a, b.
           now rewrite re_match_Rep_0 in Hp.
      * rewrite re_match_Rep_S. destruct s as [|c s].
        -- split; [discriminate|].
           intros (a & b & Hs & Hlen & _). destruct a; discriminate.
        -- rewrite andb_true_iff, IHn. split.
           ++ intros (Hc & a & b & -> & Hlen & Hp & Hq).
              exists (String c a), b. rewrite re_match_Rep_S, Hc, Hp.
              simpl. auto.
           ++ intros (a & b & Hs & Hlen & Hp & Hq).
              destruct a as [|c' a]; [discriminate|].
              injection Hs as -> ->. rewrite re_match_Rep_S in Hp.
              apply andb_true_iff in Hp as [Hc Hp].
              split; [exact Hc|]. exists a, b. simpl in Hlen. auto.
    + change (width (Lit c :: p)) with (S (width p)).
      change ((Lit c :: p) ++ q)%list with (Lit c :: p ++ q).
      rewrite re_match_Lit. destruct s as [|c' s].
      * split; [discriminate|].
        intros (a & b & Hs & Hlen & _). destruct a; discriminate.
      * rewrite andb_true_iff, IH. split.
        -- intros (Hc & a & b & -> & Hlen & Hp & Hq).
           exists (String c' a), b. rewrite re_match_Lit, Hc, Hp. simpl. auto.
        -- intros (a & b & Hs & Hlen & Hp & Hq).
           destruct a as [|c2 a]; [discriminate|].
           injection Hs as -> ->. rewrite re_match_Lit in Hp.
           apply andb_true_iff in Hp as [Hc Hp].
           split; [exact Hc|]. exists a, b. simpl in Hlen. auto.
Qed.

(** What [.*Z$] matches. *)
Lemma re_match_utctime_tail (t : string) :
  re_match utctime_tail t = true
  <-> exists mid tail,
      t = mid ++ "Z" ++ tail /\ no_newline mid = true
      /\ (tail = "" \/ tail = newline_str).
Proof.
  assert (HZ : forall u,
             re_match [Lit "Z"; Dollar] u = true
             <-> exists tail, u = "Z" ++ tail /\ (tail = "" \/ tail = newline_str)).
  { intros u. rewrite re_match_Lit. destruct u as [|c u]; [split|].
    - discriminate.
    - intros (tail & H & _). discriminate.
    - rewrite andb_true_iff, re_match_Dollar. split.
      + intros [Hc Hu]. apply Ascii.eqb_eq in Hc as <-.
        destruct u as [|c' [|c2 u]]; try discriminate.
        * exists "". auto.
        * apply andb_true_iff in Hu as [Hc' _]. apply Ascii.eqb_eq in Hc' as ->.
          exists newline_str. auto.
      + intros (tail & [= -> ->] & [->| ->]); split; reflexivity. }
  unfold utctime_tail. split.
  - induction t as [|c t IH]; rewrite re_match_DotStar.
    + rewrite orb_false_r. intros H. apply HZ in H as (tail & H & _). discriminate.
    + intros H. apply orb_true_iff in H as [H|H].
      * apply HZ in H as (tail & -> & Ht). exists "", tail. auto.
      * apply andb_true_iff in H as [Hc H].
        destruct (IH H) as (mid & tail & -> & Hmid & Ht).
        exists (String c mid), tail. simpl. rewrite Hc, Hmid. auto.
  - intros (mid & tail & -> & Hmid & Ht).
    induction mid as [|c mid IH]; rewrite re_match_DotStar.
    + apply orb_true_iff. left. apply HZ. now exists tail.
    + simpl in Hmid. apply andb_true_iff in Hmid as [Hc Hmid].
      apply orb_true_iff. right. simpl. rewrite Hc. simpl. now apply IH.
Qed.

(** ** UtcTime and DateTime *)

(** The UtcTime pattern is the DateTime pattern followed by its tail. *)
Lemma utctime_split (s : string) :
  re_match utctime_pattern s = true
  <-> exists dt mid tail,
      s = dt ++ mid ++ "Z" ++ tail
      /\ String.length dt = 19%nat
      /\ re_match datetime_pattern dt = true
      /\ no_newline mid = true
      /\ (tail = "" \/ tail = newline_str).
Proof.
  change utctime_pattern with (datetime_pattern ++ utctime_tail)%list.
  rewrite (re_match_fixed_split datetime_pattern utctime_tail eq_refl). split.
  - intros (a & b & -> & Hlen & Hp & Hq).
    apply re_match_utctime_tail in Hq as (mid & tail & -> & Hmid & Ht).
    exists a, mid, tail. auto.
  - intros (dt & mid & tail & -> & Hlen & Hp & Hmid & Ht).
    exists dt, (mid ++ "Z" ++ tail). repeat split; auto.
    apply re_match_utctime_tail. now exists mid, tail.
Qed.

Lemma datetime_extend (dt rest : string) :
  re_match datetime_pattern dt = true ->
  String.length dt = 19%nat ->
  re_match datetime_pattern (dt ++ rest) = true.
Proof.
  intros Hp Hlen.
  rewrite <- (app_nil_r datetime_pattern).
  apply (re_match_fixed_split datetime_pattern [] eq_refl).
  exists dt, rest. auto.
Qed.

(** X4. Every value that is a valid UtcTime is a valid DateTime. *)
Theorem utctime_is_datetime (v : value) :
  _is_valid_utctime v = true -> _is_valid_datetime v = true.
Proof.
  destruct v as [| | | |s| |]; try discriminate. simpl.
  intros H. apply utctime_split in H as (dt & mid & tail & -> & Hlen & Hp & _).
  now apply datetime_extend.
Qed.

Lemma utctime_is_datetime_witness :
  _is_valid_datetime (VStr "2026-01-16T14:02:37.789055Z") = true.
Proof.
  apply (utctime_is_datetime (VStr "2026-01-16T14:02:37.789055Z")). reflexivity.
Defined.

(** X5. A string is a valid UtcTime exactly when it is 19 characters matched
    by the DateTime pattern, then characters other than a newline, then
    [Z], then nothing or one final newline. *)
Theorem utctime_shape (s : string) :
  _is_valid_utctime (VStr s) = true
  <-> exists dt mid tail,
      s = dt ++ mid ++ "Z" ++ tail
      /\ String.length dt = 19%nat
      /\ _is_valid_datetime (VStr dt) = true
      /\ no_newline mid = true
      /\ (tail = "" \/ tail = newline_str).
Proof.
  apply utctime_split.
Qed.

(** ** GUID strings *)

Lemma re_match_Rep_split cls n q :
  forall s,
    re_match (Rep cls n :: q) s = true
    <-> exists g b,
        s = g ++ b /\ String.length g = n
        /\ str_forall cls g = true /\ re_match q b = true.
Proof.
  induction n as [|n IH]; intros s.
  - rewrite re_match_Rep_0. split.
    + intros H. now exists "", s.
    + intros (g & b & -> & Hlen & _ & Hq). destruct g; [exact Hq | discriminate].
  - rewrite re_match_Rep_S. destruct s as [|c s].
    + split; [discriminate|]. intros (g & b & Hs & Hlen & _). destruct g; discriminate.
    + rewrite andb_true_iff, IH. split.
      * intros (Hc & g & b & -> & Hlen & Hg & Hq).
        exists (String c g), b. simpl. rewrite Hc, Hg. auto.
      * intros (g & b & Hs & Hlen & Hg & Hq).
        destruct g as [|c' g]; [discriminate|]. injection Hs as -> ->.
        simpl in Hg, Hlen. apply andb_true_iff in Hg as [Hc Hg].
        split; [exact Hc|]. exists g, b. auto.
Qed.

Lemma re_match_Lit_split c q s :
  re_match (Lit c :: q) s = true <-> exists b, s = String c b /\ re_match q b = true.
Proof.
  rewrite re_match_Lit. destruct s as [|c' s].
  - split; [discriminate|]. intros (b & H & _). discriminate.
  - rewrite andb_true_iff. split.
    + intros [Hc Hq]. apply Ascii.eqb_eq in Hc as <-. now exists s.
    + intros (b & [= -> ->] & Hq). split; [apply Ascii.eqb_refl | exact Hq].
Qed.

Lemma re_match_end (b : string) :
  re_match [Dollar] b = true <-> b = "" \/ b = newline_str.
Proof.
  rewrite re_match_Dollar. destruct b as [|c [|c' b]].
  - split; auto.
  - rewrite andb_true_r. split.
    + intros H. apply Ascii.eqb_eq in H as ->. now right.
    + intros [H|H]; [discriminate|]. injection H as ->. apply Ascii.eqb_refl.
  - split; [discriminate|]. intros [H|H]; discriminate.
Qed.

(** X6. A string is a valid GUID exactly when it is five groups of 8, 4, 4,
    4 and 12 hexadecimal digits separated by hyphens, followed by nothing
    or by one final newline. *)
Theorem guid_shape (s : string) :
  _is_valid_guid (VStr s) = true
  <-> exists g1 g2 g3 g4 g5 tail,
      s = g1 ++ "-" ++ g2 ++ "-" ++ g3 ++ "-" ++ g4 ++ "-" ++ g5 ++ tail
      /\ (String.length g1 = 8 /\ String.length g2 = 4 /\ String.length g3 = 4
          /\ String.length g4 = 4 /\ String.length g5 = 12)%nat
      /\ (str_forall is_hex g1 = true /\ str_forall is_hex g2 = true
          /\ str_forall is_hex g3 = true /\ str_forall is_hex g4 = true
          /\ str_forall is_hex g5 = true)
      /\ (tail = "" \/ tail = newline_str).
Proof.
  cbn [_is_valid_guid]. unfold guid_pattern. split.
  - intros H.
    apply re_match_Rep_split in H as (g1 & b1 & -> & L1 & F1 & H).
    apply re_match_Lit_split in H as (b1' & -> & H).
    apply re_match_Rep_split in H as (g2 & b2 & -> & L2 & F2 & H).
    apply re_match_Lit_split in H as (b2' & -> & H).
    apply re_match_Rep_split in H as (g3 & b3 & -> & L3 & F3 & H).
    apply re_match_Lit_split in H as (b3' & -> & H).
    apply re_match_Rep_split in H as (g4 & b4 & -> & L4 & F4 & H).
    apply re_match_Lit_split in H as (b4' & -> & H).
    apply re_match_Rep_split in H as (g5 & tail & -> & L5 & F5 & H).
    apply re_match_end in H.
    exists g1, g2, g3, g4, g5, tail. auto 12.
  - intros (g1 & g2 & g3 & g4 & g5 & tail & -> & (L1 & L2 & L3 & L4 & L5)
            & (F1 & F2 & F3 & F4 & F5) & Ht).
    apply re_match_Rep_split. exists g1; eexists; repeat split; eauto.
    apply re_match_Lit_split. eexists; split; [reflexivity|].
    apply re_match_Rep_split. exists g2; eexists; repeat split; eauto.
    apply re_match_Lit_split. eexists; split; [reflexivity|].
    apply re_match_Rep_split. exists g3; eexists; repeat split; eauto.
    apply re_match_Lit_split. eexists; split; [reflexivity|].
    apply re_match_Rep_split. exists g4; eexists; repeat split; eauto.
    apply re_match_Lit_split. eexists; split; [reflexivity|].
    apply re_match_Rep_split. exists g5; eexists; repeat split; eauto.
    now apply re_match_end.
Qed.

(** Matching is unchanged under a character map that the pattern does
    not tell apart from the identity and that keeps newlines apart. *)
Lemma re_match_str_map (f : ascii -> ascii) :
  (forall c, Ascii.eqb (f c) newline = Ascii.eqb c newline) ->
  forall pat, Forall (item_respects f) pat ->
  forall s, re_match pat (str_map f s) = re_match pat s.
Proof.
  intros Hnl pat. induction pat as [|it pat IH]; intros Hres s; [reflexivity|].
  inversion Hres as [|? ? Hit Hpat]; subst. specialize (IH Hpat).
  destruct it as [cls n|l| |].
  - simpl in Hit. clear Hres. revert s. induction n as [|n IHn]; intros s.
    + now rewrite !re_match_Rep_0.
    + rewrite !re_match_Rep_S. destruct s as [|c s]; [reflexivity|].
      simpl str_map. cbv beta iota. now rewrite Hit, IHn.
  - rewrite !re_match_Lit. destruct s as [|c s]; [reflexivity|].
    simpl str_map. cbv beta iota. simpl in Hit. now rewrite Hit, IH.
  - induction s as [|c s IHs].
    + rewrite (re_match_DotStar pat (str_map f "")), (re_match_DotStar pat "").
      simpl str_map. reflexivity.
    + rewrite (re_match_DotStar pat (str_map f (String c s))),
        (re_match_DotStar pat (String c s)).
      rewrite IH. simpl str_map. cbv beta iota. now rewrite Hnl, IHs.
  - rewrite !re_match_Dollar. destruct s as [|c [|c' s]]; simpl str_map; cbv beta iota.
    + reflexivity.
    + rewrite Hnl. f_equal. exact (IH (String c "")).
    + reflexivity.
Qed.

Lemma ascii_upper_hex (c : ascii) : is_hex (ascii_upper c) = is_hex c.
Proof.
  destruct c as [[] [] [] [] [] [] [] []]; reflexivity.
Qed.

Lemma ascii_upper_hyphen (c : ascii) :
  Ascii.eqb "-" (ascii_upper c) = Ascii.eqb "-" c.
Proof.
  destruct c as [[] [] [] [] [] [] [] []]; reflexivity.
Qed.

Lemma ascii_upper_newline (c : ascii) :
  Ascii.eqb (ascii_upper c) newline = Ascii.eqb c newline.
Proof.
  destruct c as [[] [] [] [] [] [] [] []]; reflexivity.
Qed.

(** X7. The GUID check does not depend on the case of the letters: a string
    and its upper-case form are accepted or rejected together. *)
Theorem guid_case_insensitive (s : string) :
  _is_valid_guid (VStr (str_map ascii_upper s)) = _is_valid_guid (VStr s).
Proof.
  cbn [_is_valid_guid]. apply re_match_str_map; [exact ascii_upper_newline|].
  unfold guid_pattern.
  repeat (constructor; try exact ascii_upper_hex; try exact ascii_upper_hyphen;
          try exact I).
Qed.

(** ** Integer ranges *)

Lemma in_range_iff (lo hi z : Z) (e : ValidationError) :
  (if negb ((lo <=? z)%Z && (z <=? hi)%Z) then [e] else []) = []
  <-> (lo <= z <= hi)%Z.
Proof.
  destruct (Z.leb_spec lo z), (Z.leb_spec z hi); simpl; split;
    try discriminate; try lia; reflexivity.
Qed.

(** X1. An integer passes the check of an integer type exactly when it lies
    in the range of the type, bounds included. *)
Theorem integer_ranges (z : Z) (p : string) :
  ((_validate_opc_type (VInt z) "opc:Int16" p = [] <-> -32768 <= z <= 32767)
   /\ (_validate_opc_type (VInt z) "opc:Int32" p = []
       <-> -2147483648 <= z <= 2147483647)
   /\ (_validate_opc_type (VInt z) "opc:Int64" p = []
       <-> -9223372036854775808 <= z <= 9223372036854775807)
   /\ (_validate_opc_type (VInt z) "opc:UInt16" p = [] <-> 0 <= z <= 65535)
   /\ (_validate_opc_type (VInt z) "opc:UInt32" p = [] <-> 0 <= z <= 4294967295)
   /\ (_validate_opc_type (VInt z) "opc:UInt64" p = []
       <-> 0 <= z <= 18446744073709551615))%Z.
Proof.
  split; [|split; [|split; [|split; [|split]]]].
  - exact (in_range_iff (-32768) 32767 z _).
  - exact (in_range_iff (-2147483648) 2147483647 z _).
  - exact (in_range_iff (-9223372036854775808) 9223372036854775807 z _).
  - exact (in_range_iff 0 65535 z _).
  - exact (in_range_iff 0 4294967295 z _).
  - exact (in_range_iff 0 18446744073709551615 z _).
Qed.

(** X2. An integer type accepts what a narrower one accepts, and Float and
    Double accept what any integer type accepts. *)
Theorem integer_types_nest (v : value) :
  (_is_valid_int16 v = true -> _is_valid_int32 v = true)
  /\ (_is_valid_int32 v = true -> _is_valid_int64 v = true)
  /\ (_is_valid_uint16 v = true -> _is_valid_uint32 v = true)
  /\ (_is_valid_uint32 v = true -> _is_valid_uint64 v = true)
  /\ (_is_valid_uint16 v = true -> _is_valid_int32 v = true)
  /\ (_is_valid_uint32 v = true -> _is_valid_int64 v = true)
  /\ (_is_valid_int64 v = true -> _is_valid_float v = true /\ _is_valid_double v = true)
  /\ (_is_valid_uint64 v = true -> _is_valid_float v = true /\ _is_valid_double v = true).
Proof.
  unfold _is_valid_int16, _is_valid_int32, _is_valid_int64, _is_valid_uint16,
    _is_valid_uint32, _is_valid_uint64, _is_valid_float, _is_valid_double.
  destruct (isinstance_int v); cbn [andb orb];
    repeat split; try discriminate;
    rewrite !andb_true_iff, !Z.leb_le in *; lia.
Qed.

Lemma integer_types_nest_witness : _is_valid_int32 (VInt 100) = true.
Proof.
  exact (proj1 (integer_types_nest (VInt 100)) eq_refl).
Defined.

(** ** What [_validate_timezone] accepts *)

(** X8. [_validate_timezone] reports nothing exactly for an object that has
    an [offset] accepted as Int16 and a boolean
    [daylightSavingInOffset]; other keys of the object play no part. *)
Theorem timezone_accepts (v : value) (p : string) :
  _validate_timezone v p = []
  <-> exists d off b,
      v = VDict d
      /\ str_get "offset" d = Some off /\ _is_valid_int16 off = true
      /\ str_get "daylightSavingInOffset" d = Some (VBool b).
Proof.
  split.
  - destruct v as [| | | | | |d]; try discriminate.
    unfold _validate_timezone.
    destruct (str_get "offset" d) as [off|] eqn:Hget;
      [destruct (_is_valid_int16 off) eqn:Hoff|];
      (destruct (str_get "daylightSavingInOffset" d) as [dst|] eqn:Hdst;
       [destruct dst; try discriminate|]); try discriminate.
    intros _. eauto 10.
  - intros (d & off & b & -> & Hoff & Hv & Hdst).
    unfold _validate_timezone. now rewrite Hoff, Hv, Hdst.
Qed.

(** ** The table of fields built by [_parse_profile] *)

Lemma key_eqb_spec (a b : option string) : reflect (a = b) (key_eqb a b).
Proof.
  destruct a as [x|], b as [y|]; simpl; try (constructor; congruence).
  destruct (String.eqb_spec x y); constructor; congruence.
Qed.

Lemma dict_get_set (k k' : option string) (f : FieldDef) d :
  dict_get key_eqb k' (dict_set key_eqb k f d)
  = if key_eqb k' k then Some f else dict_get key_eqb k' d.
Proof.
  induction d as [|[k0 f0] d IH]; simpl.
  - reflexivity.
  - destruct (key_eqb_spec k k0) as [->|Hne]; simpl.
    + destruct (key_eqb k' k0); reflexivity.
    + destruct (key_eqb_spec k' k0) as [->|Hne'].
      * destruct (key_eqb_spec k0 k); [congruence | reflexivity].
      * exact IH.
Qed.

Lemma dict_set_keys (k : option string) (f : FieldDef) d :
  map fst (dict_set key_eqb k f d)
  = if existsb (key_eqb k) (map fst d) then map fst d else (map fst d ++ [k])%list.
Proof.
  induction d as [|[k0 f0] d IH]; simpl; [reflexivity|].
  destruct (key_eqb k k0); simpl; [reflexivity|].
  rewrite IH. now destruct (existsb (key_eqb k) (map fst d)).
Qed.

Lemma dict_set_NoDup (k : option string) (f : FieldDef) d :
  NoDup (map fst d) -> NoDup (map fst (dict_set key_eqb k f d)).
Proof.
  intros Hd. rewrite dict_set_keys.
  destruct (existsb (key_eqb k) (map fst d)) eqn:E; [exact Hd|].
  apply NoDup_app; [exact Hd | repeat constructor; simpl; tauto |].
  intros x Hx [Heq|[]]. subst x.
  assert (existsb (key_eqb k) (map fst d) = true); [|congruence].
  apply existsb_exists. exists k. split; [exact Hx|].
  now destruct (key_eqb_spec k k).
Qed.

Lemma find_app_last (A : Type) (test : A -> bool) (l : list A) (x : A) :
  find test (l ++ [x])
  = match find test l with
    | Some y => Some y
    | None => if test x then Some x else None
    end.
Proof.
  induction l as [|y l IH]; simpl; [reflexivity|].
  destruct (test y); [reflexivity | exact IH].
Qed.

Lemma fold_dict_set (name_of : FieldDef -> option string) (defs : list FieldDef) :
  forall acc,
    NoDup (map fst acc) ->
    let d := fold_left (fun d f => dict_set key_eqb (name_of f) f d) defs acc in
    NoDup (map fst d)
    /\ forall k,
        dict_get key_eqb k d
        = match find (fun f => key_eqb k (name_of f)) (rev defs) with
          | Some f => Some f
          | None => dict_get key_eqb k acc
          end.
Proof.
  induction defs as [|f defs IH]; intros acc Hacc; simpl.
  - auto.
  - destruct (IH (dict_set key_eqb (name_of f) f acc) (dict_set_NoDup _ _ _ Hacc))
      as [Hnd Hget].
    split; [exact Hnd|]. intros k. rewrite Hget, find_app_last.
    destruct (find (fun f0 => key_eqb k (name_of f0)) (rev defs)); [reflexivity|].
    rewrite dict_get_set. now destruct (key_eqb k (name_of f)).
Qed.

(** X9. In the table of fields no name occurs twice, and a name stands for
    the last definition of the profile that bears it: the definitions are
    those of [cesmii:fields] by [cesmii:fieldName] for a DataType profile
    and those of [cesmii:attributes] by [cesmii:browseName] otherwise. *)
Theorem parse_profile_fields (profile : Profile)
  (referenced_profiles : list (string * Profile)) :
  let self := _parse_profile profile referenced_profiles in
  NoDup (map fst (fields self))
  /\ forall k,
      dict_get key_eqb k (fields self)
      = find (fun fd => key_eqb k (def_name profile fd)) (rev (profile_defs profile)).
Proof.
  unfold _parse_profile, profile_defs, def_name. cbn [fields].
  destruct (get_default (cesmii_isDataType profile) false); unfold fields_by.
  - destruct (fold_dict_set cesmii_fieldName (cesmii_fields profile) [] (NoDup_nil _))
      as [Hnd Hget].
    split; [exact Hnd|]. intros k. rewrite Hget.
    now destruct (find _ _).
  - destruct (fold_dict_set cesmii_browseName (cesmii_attributes profile) [] (NoDup_nil _))
      as [Hnd Hget].
    split; [exact Hnd|]. intros k. rewrite Hget.
    now destruct (find _ _).
Qed.

(** * Further properties of [validate] *)

(** The iteration for a field, in terms of what the field declares. *)
Lemma validate_field_eq rec self d prefix name fd errs :
  validate_field rec self d prefix (name, fd) errs
  = match key_get name d with
    | None => Some errs
    | Some v =>
        if get_default (cesmii_isArray fd) false
        then match v with
             | VList items =>
                 items_loop rec self (declared_ref fd) (resolved_opc_type self name fd)
                   (field_path prefix name) items 0 errs
             | _ => Some (errs ++ [expected_array_error (field_path prefix name) v])%list
             end
        else check_value rec self (declared_ref fd) (resolved_opc_type self name fd)
               v (field_path prefix name) errs
    end.
Proof.
  reflexivity.
Qed.

(** ** Fields the payload does not have *)

Lemma fields_loop_absent rec self d prefix flds :
  Forall (fun fld => key_get (fst fld) d = None) flds ->
  forall errs, fields_loop rec self d prefix flds errs = Some errs.
Proof.
  induction 1 as [|[name fd] flds Hfld _ IH]; intros errs; cbn [fields_loop];
    [reflexivity|].
  rewrite validate_field_eq. simpl in Hfld. rewrite Hfld. apply IH.
Qed.

(** X10. Every field is optional: a payload object that has none of the
    fields of the profile, the empty object for one, is valid and has no
    errors, whatever else it holds. *)
Theorem absent_fields_are_skipped (fuel : nat) (self : ProfileValidator)
  (d : list (string * value)) (prefix : string) :
  Forall (fun fld => key_get (fst fld) d = None) (fields self) ->
  exists w,
    validate (S fuel) self (VDict d) prefix = Some (mkResult true [] w).
Proof.
  intros H. cbn [validate]. unfold validate_body.
  rewrite (fields_loop_absent _ self d prefix (fields self) H []).
  eexists. reflexivity.
Qed.

Lemma absent_fields_are_skipped_witness :
  exists w,
    validate 1 (new_ProfileValidator workorder_profile None)
      (VDict [("Comment", VStr "none of the fields")]) ""
    = Some (mkResult true [] w).
Proof.
  apply (absent_fields_are_skipped 0 (new_ProfileValidator workorder_profile None)
           [("Comment", VStr "none of the fields")] "").
  repeat constructor.
Defined.

(** ** Keys of the payload that the profile does not name *)

Lemma fields_loop_agree rec self d1 d2 prefix flds :
  agree_on flds d1 d2 ->
  forall errs,
    fields_loop rec self d1 prefix flds errs = fields_loop rec self d2 prefix flds errs.
Proof.
  induction 1 as [|[name fd] flds Hfld _ IH]; intros errs; cbn [fields_loop];
    [reflexivity|].
  rewrite !validate_field_eq. simpl in Hfld. rewrite Hfld.
  destruct (match key_get name d2 with Some _ => _ | None => _ end); [apply IH | reflexivity].
Qed.

(** X11. Only the values under the names of the profile's fields count: two
    payload objects that agree on them get the same errors and the same
    validity, whatever other keys they hold. *)
Theorem unknown_keys_are_ignored (fuel : nat) (self : ProfileValidator)
  (d1 d2 : list (string * value)) (prefix : string) :
  agree_on (fields self) d1 d2 ->
  option_map errors (validate fuel self (VDict d1) prefix)
  = option_map errors (validate fuel self (VDict d2) prefix)
  /\ option_map valid (validate fuel self (VDict d1) prefix)
     = option_map valid (validate fuel self (VDict d2) prefix).
Proof.
  intros H. destruct fuel as [|fuel]; [split; reflexivity|].
  cbn [validate]. unfold validate_body.
  rewrite (fields_loop_agree _ self d1 d2 prefix (fields self) H []).
  destruct (fields_loop _ self d2 prefix (fields self) []); split; reflexivity.
Qed.

Lemma unknown_keys_are_ignored_witness :
  let self := new_ProfileValidator workorder_profile None in
  let d1 := [("Quantity", VStr "ten")] in
  let d2 := [("Operator", VStr "A. Smith"); ("Quantity", VStr "ten"); ("Shift", VInt 2)] in
  option_map errors (validate 1 self (VDict d1) "")
  = option_map errors (validate 1 self (VDict d2) "")
  /\ option_map valid (validate 1 self (VDict d1) "")
     = option_map valid (validate 1 self (VDict d2) "").
Proof.
  apply (unknown_keys_are_ignored 1 (new_ProfileValidator workorder_profile None)
           [("Quantity", VStr "ten")]
           [("Operator", VStr "A. Smith"); ("Quantity", VStr "ten"); ("Shift", VInt 2)] "").
  repeat constructor.
Defined.

(** ** Types without a check *)

Lemma _validate_opc_type_not_known v t p :
  known_type t = false -> _validate_opc_type v t p = [].
Proof.
  unfold known_type, _validate_opc_type.
  destruct (str_get t OPC_TYPE_VALIDATORS) as [[validator desc]|]; [discriminate|].
  now intros ->.
Qed.

Lemma check_value_no_check rec self ref ty v p errs :
  truthy_str ref = false ->
  match ty with Some t => known_type t = false | None => True end ->
  check_value rec self ref ty v p errs = Some errs.
Proof.
  intros Href Hty. unfold check_value. rewrite Href.
  destruct (truthy_str ty); [|reflexivity].
  destruct ty as [t|]; simpl get_default.
  - now rewrite (_validate_opc_type_not_known v t p Hty), app_nil_r.
  - now rewrite (_validate_opc_type_not_known v "" p eq_refl), app_nil_r.
Qed.

Lemma items_loop_no_check rec self ref ty p items :
  truthy_str ref = false ->
  match ty with Some t => known_type t = false | None => True end ->
  forall i errs, items_loop rec self ref ty p items i errs = Some errs.
Proof.
  intros Href Hty. induction items as [|item rest IH]; intros i errs;
    cbn [items_loop]; [reflexivity|].
  rewrite (check_value_no_check rec self ref ty item _ errs Href Hty). apply IH.
Qed.

(** X12. A field without a profile reference whose type, its own or the one
    of the context, is missing or is not an identifier the validator
    knows never gives an error: any single value passes, and so does any
    list for an array field. *)
Theorem unknown_type_passes
  (rec : ProfileValidator -> value -> string -> option ValidationResult)
  (self : ProfileValidator) (d : list (string * value)) (prefix : string)
  (name : option string) (fd : FieldDef) (v : value) (errs : list ValidationError) :
  truthy_str (declared_ref fd) = false ->
  match resolved_opc_type self name fd with
  | Some t => known_type t = false
  | None => True
  end ->
  key_get name d = Some v ->
  get_default (cesmii_isArray fd) false = false \/ isinstance_list v = true ->
  validate_field rec self d prefix (name, fd) errs = Some errs.
Proof.
  intros Href Hty Hget Hshape. rewrite validate_field_eq, Hget.
  destruct (get_default (cesmii_isArray fd) false).
  - destruct Hshape as [|Hl]; [discriminate|].
    destruct v; try discriminate. now apply items_loop_no_check.
  - now apply check_value_no_check.
Qed.

Lemma unknown_type_passes_witness :
  let fd := typed_attribute "Recipe" "custom:RecipeType" in
  validate_field (validate 0)
    (new_ProfileValidator (mkProfile None [] [fd] None []) None)
    [("Recipe", VList [VInt 1; VStr "two"])] "" (Some "Recipe", fd) []
  = Some [].
Proof.
  apply (unknown_type_passes (validate 0)
           (new_ProfileValidator
              (mkProfile None [] [typed_attribute "Recipe" "custom:RecipeType"] None [])
              None)
           [("Recipe", VList [VInt 1; VStr "two"])] "" (Some "Recipe")
           (typed_attribute "Recipe" "custom:RecipeType")
           (VList [VInt 1; VStr "two"]) []);
    [reflexivity | reflexivity | reflexivity | now left].
Defined.

(** ** The type of the context *)

(** X13. A field that declares neither a reference nor a type of its own is
    checked against the [@type] of its entry in the context: a single
    value gets exactly the errors of [_validate_opc_type] for that type. *)
Theorem context_type_is_used
  (rec : ProfileValidator -> value -> string -> option ValidationResult)
  (self : ProfileValidator) (d : list (string * value)) (prefix : string)
  (name : option string) (fd : FieldDef) (t : string) (v : value)
  (errs : list ValidationError) :
  truthy_str (declared_ref fd) = false ->
  truthy_str (declared_opc_type fd) = false ->
  key_get name (context self) = Some (CtxObject (Some t)) ->
  get_default (cesmii_isArray fd) false = false ->
  key_get name d = Some v ->
  validate_field rec self d prefix (name, fd) errs
  = Some (errs ++ _validate_opc_type v t (field_path prefix name))%list.
Proof.
  intros Href Hty Hctx Harr Hget. rewrite validate_field_eq, Hget, Harr.
  unfold check_value, resolved_opc_type, _get_type_from_context.
  rewrite Href, Hty, Hctx. cbn [negb get_default].
  destruct (truthy_str (Some t)) eqn:Ht; [reflexivity|].
  simpl in Ht. apply negb_false_iff, String.eqb_eq in Ht. subst t.
  now rewrite (_validate_opc_type_not_known v "" _ eq_refl), app_nil_r.
Qed.

Lemma context_type_is_used_witness :
  let fd := mkField None (Some "Count") None None in
  let self :=
    new_ProfileValidator
      (mkProfile None [] [fd] None [("Count", CtxObject (Some "opc:Int32"))]) None in
  validate_field (validate 0) self [("Count", VStr "many")] "" (Some "Count", fd) []
  = Some ([] ++ _validate_opc_type (VStr "many") "opc:Int32" "Count")%list.
Proof.
  apply (context_type_is_used (validate 0)
           (new_ProfileValidator
              (mkProfile None [] [mkField None (Some "Count") None None] None
                 [("Count", CtxObject (Some "opc:Int32"))]) None)
           [("Count", VStr "many")] "" (Some "Count")
           (mkField None (Some "Count") None None) "opc:Int32" (VStr "many") []);
    reflexivity.
Defined.

(** ** Arrays of primitive values *)

Lemma items_loop_opc rec self ref t p items :
  truthy_str ref = false ->
  t <> "" ->
  forall i errs,
    items_loop rec self ref (Some t) p items i errs
    = Some (errs ++ opc_items_errors t p items i)%list.
Proof.
  intros Href Ht. induction items as [|item rest IH]; intros i errs;
    cbn [items_loop opc_items_errors].
  - now rewrite app_nil_r.
  - unfold check_value. rewrite Href, (truthy_str_Some t Ht). simpl get_default.
    rewrite IH. fold (item_path p i). now rewrite app_assoc.
Qed.

Lemma _validate_opc_type_at_most_one v t p :
  t <> "opc:TimeZoneDataType" ->
  (List.length (_validate_opc_type v t p) <= 1)%nat.
Proof.
  intros Ht. unfold _validate_opc_type.
  destruct (str_get t OPC_TYPE_VALIDATORS) as [[validator desc]|].
  - destruct (validator v); simpl; lia.
  - destruct (String.eqb_spec t "opc:TimeZoneDataType"); [contradiction | simpl; lia].
Qed.

Lemma opc_items_errors_length t p items :
  t <> "opc:TimeZoneDataType" ->
  forall i, (List.length (opc_items_errors t p items i) <= List.length items)%nat.
Proof.
  intros Ht. induction items as [|item rest IH]; intros i; simpl; [lia|].
  rewrite length_app. specialize (IH (S i)).
  pose proof (_validate_opc_type_at_most_one item t (item_path p i) Ht). lia.
Qed.

(** X14. For an array field with a type and no reference, every element of a
    list value is checked against the type at the path of the element,
    and a failing element does not stop the checks of the later ones: the
    errors are those of the elements, in order.  A type other than
    [opc:TimeZoneDataType] gives at most one error for an element. *)
Theorem array_elements_checked_one_by_one
  (rec : ProfileValidator -> value -> string -> option ValidationResult)
  (self : ProfileValidator) (d : list (string * value)) (prefix : string)
  (name : option string) (fd : FieldDef) (t : string) (items : list value)
  (errs : list ValidationError) :
  get_default (cesmii_isArray fd) false = true ->
  truthy_str (declared_ref fd) = false ->
  resolved_opc_type self name fd = Some t ->
  t <> "" ->
  key_get name d = Some (VList items) ->
  validate_field rec self d prefix (name, fd) errs
  = Some (errs ++ opc_items_errors t (field_path prefix name) items 0)%list
  /\ (t <> "opc:TimeZoneDataType" ->
      (List.length (opc_items_errors t (field_path prefix name) items 0)
       <= List.length items)%nat).
Proof.
  intros Harr Href Hty Ht Hget. split.
  - rewrite validate_field_eq, Hget, Harr, Hty. now apply items_loop_opc.
  - intros Htz. now apply opc_items_errors_length.
Qed.

Lemma array_elements_checked_one_by_one_witness :
  let fd := mkField None (Some "Counts") (Some (mkDataType (Some "opc:Int16") None))
              (Some true) in
  let self := new_ProfileValidator (mkProfile None [] [fd] None []) None in
  let items := [VInt 1; VStr "two"; VInt 3; VInt 40000] in
  validate_field (validate 0) self [("Counts", VList items)] "" (Some "Counts", fd) []
  = Some ([] ++ opc_items_errors "opc:Int16" "Counts" items 0)%list
  /\ ("opc:Int16" <> "opc:TimeZoneDataType" ->
      (List.length (opc_items_errors "opc:Int16" "Counts" items 0)
       <= List.length items)%nat).
Proof.
  apply (array_elements_checked_one_by_one (validate 0)
           (new_ProfileValidator
              (mkProfile None []
                 [mkField None (Some "Counts") (Some (mkDataType (Some "opc:Int16") None))
                    (Some true)] None []) None)
           [("Counts", VList [VInt 1; VStr "two"; VInt 3; VInt 40000])] "" (Some "Counts")
           (mkField None (Some "Counts") (Some (mkDataType (Some "opc:Int16") None))
              (Some true))
           "opc:Int16" [VInt 1; VStr "two"; VInt 3; VInt 40000] []);
    [reflexivity | reflexivity | reflexivity | discriminate | reflexivity].
Defined.

(** ** Where the errors are located *)

Lemma str_app_assoc (a b c : string) : (a ++ b) ++ c = a ++ (b ++ c).
Proof.
  induction a as [|x a IH]; simpl; congruence.
Qed.

Lemma str_app_nil_r (a : string) : a ++ "" = a.
Proof.
  induction a as [|x a IH]; simpl; congruence.
Qed.

Lemma rooted_here root e : path e = root -> rooted root e.
Proof.
  intros H. exists "". now rewrite str_app_nil_r.
Qed.

Lemma rooted_under root s e : rooted (root ++ s) e -> rooted root e.
Proof.
  intros [suffix H]. exists (s ++ suffix). now rewrite <- str_app_assoc.
Qed.

Lemma Forall_rooted_under root s es :
  Forall (rooted (root ++ s)) es -> Forall (rooted root) es.
Proof.
  apply Forall_impl. intros e. apply rooted_under.
Qed.

Lemma _validate_timezone_rooted v p : Forall (rooted p) (_validate_timezone v p).
Proof.
  assert (Hsub : forall s m x y, rooted p (mkError (p ++ s) m x y)).
  { intros s m x y. now exists s. }
  unfold _validate_timezone. destruct v as [| | | | | |d];
    try (constructor; [now apply rooted_here | constructor]).
  destruct (str_get "offset" d) as [off|];
    [destruct (_is_valid_int16 off)|];
    (destruct (str_get "daylightSavingInOffset" d) as [dst|];
     [destruct (_is_valid_boolean dst)|]);
    simpl; repeat constructor; apply Hsub.
Qed.

Lemma _validate_opc_type_rooted v t p : Forall (rooted p) (_validate_opc_type v t p).
Proof.
  unfold _validate_opc_type.
  destruct (str_get t OPC_TYPE_VALIDATORS) as [[validator desc]|].
  - destruct (validator v); simpl; repeat constructor. now apply rooted_here.
  - destruct (t =? "opc:TimeZoneDataType"); [apply _validate_timezone_rooted | constructor].
Qed.

Lemma field_path_rooted prefix name e :
  rooted (field_path prefix name) e -> rooted prefix e.
Proof.
  unfold field_path. destruct prefix as [|c prefix]; cbn [truthy String.eqb negb].
  - intros [suffix H]. exists (key_str name ++ suffix). now rewrite <- str_app_assoc.
  - apply rooted_under.
Qed.

Section Rooted.
Variable rec : ProfileValidator -> value -> string -> option ValidationResult.
Hypothesis rec_rooted :
  forall self v p r, rec self v p = Some r -> Forall (rooted p) (errors r).

Lemma _validate_nested_profile_rooted self v ref p es :
  _validate_nested_profile rec self v ref p = Some es -> Forall (rooted p) es.
Proof.
  unfold _validate_nested_profile.
  destruct (find_ref_profile _ _) as [pr|].
  - destruct (rec _ v p) as [r|] eqn:Hr; [|discriminate].
    intros [= <-]. exact (rec_rooted _ _ _ _ Hr).
  - intros [= <-]. repeat constructor. now apply rooted_here.
Qed.

Lemma check_value_rooted self ref ty v p es :
  check_value rec self ref ty v p [] = Some es -> Forall (rooted p) es.
Proof.
  unfold check_value. destruct (truthy_str ref).
  - destruct (_validate_nested_profile rec self v _ p) as [es'|] eqn:H; [|discriminate].
    intros [= <-]. exact (_validate_nested_profile_rooted _ _ _ _ _ H).
  - destruct (truthy_str ty); intros [= <-]; [apply _validate_opc_type_rooted | constructor].
Qed.

Lemma items_loop_rooted self ref ty p items :
  forall i es,
    items_loop rec self ref ty p items i [] = Some es -> Forall (rooted p) es.
Proof.
  induction items as [|item rest IH]; intros i es; cbn [items_loop].
  - intros [= <-]. constructor.
  - destruct (check_value rec self ref ty item _ []) as [e1|] eqn:H1; [|discriminate].
    rewrite items_loop_acc.
    destruct (items_loop rec self ref ty p rest (S i) []) as [e2|] eqn:H2; [|discriminate].
    intros [= <-]. apply Forall_app. split.
    + apply check_value_rooted in H1. exact (Forall_rooted_under _ _ _ H1).
    + exact (IH _ _ H2).
Qed.

Lemma validate_field_rooted self d prefix name fd es :
  validate_field rec self d prefix (name, fd) [] = Some es ->
  Forall (rooted (field_path prefix name)) es
  /\ (es = [] \/ exists v, key_get name d = Some v).
Proof.
  rewrite validate_field_eq.
  destruct (key_get name d) as [v|]; [|intros [= <-]; split; [constructor | now left]].
  intros H. split; [|right; now exists v].
  destruct (get_default (cesmii_isArray fd) false).
  - destruct v; try (injection H as <-; repeat constructor; now apply rooted_here).
    exact (items_loop_rooted _ _ _ _ _ _ _ H).
  - exact (check_value_rooted _ _ _ _ _ _ H).
Qed.

Lemma fields_loop_rooted self d prefix flds :
  forall es,
    fields_loop rec self d prefix flds [] = Some es ->
    Forall (fun e =>
              exists name fd v,
                In (name, fd) flds /\ key_get name d = Some v
                /\ rooted (field_path prefix name) e) es.
Proof.
  induction flds as [|[name fd] flds IH]; intros es; cbn [fields_loop].
  - intros [= <-]. constructor.
  - destruct (validate_field rec self d prefix (name, fd) []) as [e1|] eqn:H1;
      [|discriminate].
    rewrite fields_loop_acc.
    destruct (fields_loop rec self d prefix flds []) as [e2|] eqn:H2; [|discriminate].
    intros [= <-]. apply Forall_app. split.
    + apply validate_field_rooted in H1 as [Hroot [->|[v Hv]]]; [constructor|].
      revert Hroot. apply Forall_impl. intros e He.
      exists name, fd, v. simpl. auto.
    + specialize (IH _ eq_refl). revert IH. apply Forall_impl.
      intros e (n & f & v & Hin & Hv & He). exists n, f, v. simpl. auto.
Qed.

Lemma validate_body_rooted self payload prefix r :
  validate_body rec self payload prefix = Some r ->
  Forall (rooted prefix) (errors r).
Proof.
  assert (Hscalar : forall m x y,
             rooted prefix
               (mkError (if truthy (VStr prefix) then prefix else "$") m x y)).
  { intros m x y. destruct prefix as [|c s]; cbn [truthy String.eqb negb].
    - now exists "$".
    - now apply rooted_here. }
  unfold validate_body.
  destruct payload as [| | | | | |d];
    try (intros [= <-]; cbn [errors]; repeat constructor; apply Hscalar).
  destruct (fields_loop rec self d prefix (fields self) []) as [es|] eqn:H; [|discriminate].
  intros [= <-]. cbn [errors].
  apply fields_loop_rooted in H. revert H. apply Forall_impl.
  intros e (n & f & v & _ & _ & He). exact (field_path_rooted _ _ _ He).
Qed.
End Rooted.

Lemma validate_rooted (fuel : nat) :
  forall self payload prefix r,
    validate fuel self payload prefix = Some r -> Forall (rooted prefix) (errors r).
Proof.
  induction fuel as [|fuel IH]; intros self payload prefix r; [discriminate|].
  cbn [validate]. apply validate_body_rooted. exact IH.
Qed.

(** X17. The path of every error that [validate] reports starts with the path
    prefix of the call, at every level of nesting. *)
Theorem error_paths_start_with_prefix (self : ProfileValidator) (payload : value)
  (prefix : string) :
  exists r,
    validate (S (depth payload)) self payload prefix = Some r
    /\ Forall (fun e => exists suffix, path e = prefix ++ suffix) (errors r).
Proof.
  destruct (validate_enough_fuel (S (depth payload)) self payload prefix) as [r Hr]; [lia|].
  exists r. split; [exact Hr|]. exact (validate_rooted _ _ _ _ _ Hr).
Qed.

(** X18. Every error reported for a payload object lies at or under the path
    of a field of the profile for which the payload has a value. *)
Theorem errors_belong_to_present_fields (self : ProfileValidator)
  (d : list (string * value)) (prefix : string) :
  exists r,
    validate (S (depth (VDict d))) self (VDict d) prefix = Some r
    /\ Forall (fun e =>
                 exists name fd v suffix,
                   In (name, fd) (fields self)
                   /\ key_get name d = Some v
                   /\ path e = field_path prefix name ++ suffix) (errors r).
Proof.
  destruct (validate_enough_fuel (S (depth (VDict d))) self (VDict d) prefix) as [r Hr];
    [lia|].
  exists r. split; [exact Hr|].
  cbn [validate] in Hr. unfold validate_body in Hr.
  destruct (fields_loop _ self d prefix (fields self) []) as [es|] eqn:H; [|discriminate].
  injection Hr as <-. cbn [errors].
  apply (fields_loop_rooted _ (validate_rooted _)) in H. revert H. apply Forall_impl.
  intros e (n & f & v & Hin & Hv & [suffix He]). exists n, f, v, suffix. auto.
Qed.

(** ** Warnings *)

(** X19. At most one warning is returned, and it comes from the [$namespace]
    of the payload object itself: none when the key is absent, when the
    profile has no namespace or when the two are equal; one when both are
    non-empty strings that differ.  What the values nested in the payload
    carry as [$namespace] never shows. *)
Theorem namespace_warning (fuel : nat) (self : ProfileValidator)
  (d : list (string * value)) (prefix : string) (r : ValidationResult) :
  validate fuel self (VDict d) prefix = Some r ->
  (List.length (warnings r) <= 1)%nat
  /\ (str_get "$namespace" d = None -> warnings r = [])
  /\ (namespace self = "" -> warnings r = [])
  /\ (str_get "$namespace" d = Some (VStr (namespace self)) -> warnings r = [])
  /\ (forall ns,
        str_get "$namespace" d = Some (VStr ns) ->
        ns <> "" -> namespace self <> "" -> ns <> namespace self ->
        warnings r = [mkWarning (VStr ns) (namespace self)]).
Proof.
  destruct fuel as [|fuel]; [discriminate|].
  cbn [validate]. unfold validate_body.
  destruct (fields_loop _ self d prefix (fields self) []) as [es|]; [|discriminate].
  intros [= <-]. cbn [warnings]. split; [|split; [|split; [|split]]].
  - destruct (_ && _); simpl; lia.
  - intros ->. reflexivity.
  - intros ->. now rewrite andb_false_r.
  - intros ->. cbn [get_default ne_str]. rewrite String.eqb_refl.
    now rewrite andb_false_r.
  - intros ns -> Hns Hself Hne. cbn [get_default ne_str truthy].
    apply String.eqb_neq in Hns, Hself, Hne. now rewrite Hns, Hself, Hne.
Qed.

Lemma namespace_warning_witness :
  let self := new_ProfileValidator workorder_profile None in
  let d := [("$namespace", VStr "urn:example:OtherV1"); ("Quantity", VInt 1)] in
  let r := mkResult true [] [mkWarning (VStr "urn:example:OtherV1") (namespace self)] in
  (List.length (warnings r) <= 1)%nat
  /\ (str_get "$namespace" d = None -> warnings r = [])
  /\ (namespace self = "" -> warnings r = [])
  /\ (str_get "$namespace" d = Some (VStr (namespace self)) -> warnings r = [])
  /\ (forall ns,
        str_get "$namespace" d = Some (VStr ns) ->
        ns <> "" -> namespace self <> "" -> ns <> namespace self ->
        warnings r = [mkWarning (VStr ns) (namespace self)]).
Proof.
  apply (namespace_warning 1 (new_ProfileValidator workorder_profile None)
           [("$namespace", VStr "urn:example:OtherV1"); ("Quantity", VInt 1)] "").
  reflexivity.
Defined.

(** ** Values checked against a referenced profile *)

(** X15. When the reference of a field resolves to a loaded profile, the
    errors of the field are the errors of validating its value against
    that profile, with the same referenced profiles and the path of the
    field as prefix; the warnings of that validation are dropped.  A
    value that is not an object thus gets the single error ["Payload must
    be an object"] at the path of the field. *)
Theorem resolved_reference_validates_value (fuel : nat) (self : ProfileValidator)
  (d : list (string * value)) (prefix : string) (name : option string)
  (fd : FieldDef) (ref : string) (pr : Profile) (v : value)
  (errs : list ValidationError) :
  declared_ref fd = Some ref ->
  ref <> "" ->
  find_ref_profile (referenced_profiles self) ref = Some pr ->
  get_default (cesmii_isArray fd) false = false ->
  key_get name d = Some v ->
  let p := field_path prefix name in
  validate_field (validate fuel) self d prefix (name, fd) errs
  = option_map (fun r => (errs ++ errors r)%list)
      (validate fuel (new_ProfileValidator pr (Some (referenced_profiles self))) v p)
  /\ (isinstance_dict v = false ->
      validate_field (validate (S fuel)) self d prefix (name, fd) errs
      = Some (errs ++ [mkError (if truthy (VStr p) then p else "$")
                         "Payload must be an object" (Some "object")
                         (Some (type_name v))])%list).
Proof.
  intros Href Hne Hfind Harr Hget p.
  assert (Hfield : forall n,
             validate_field (validate n) self d prefix (name, fd) errs
             = option_map (fun r => (errs ++ errors r)%list)
                 (validate n (new_ProfileValidator pr (Some (referenced_profiles self)))
                    v p)).
  { intros n. rewrite validate_field_eq, Hget, Harr, Href.
    rewrite (check_value_ref (validate n) self ref _ v _ errs Hne).
    unfold _validate_nested_profile. rewrite Hfind. fold p.
    now destruct (validate n _ v p). }
  split; [apply Hfield|].
  intros Hv. rewrite Hfield. cbn [validate]. unfold validate_body.
  destruct v; try reflexivity. discriminate.
Qed.

Lemma resolved_reference_validates_value_witness :
  let self := cycle_validator true in
  let fd := mkField None (Some "b") (Some (mkDataType None (Some "urn:example:B"))) None in
  let d := [("b", VInt 7)] in
  validate_field (validate 0) self d "" (Some "b", fd) []
  = option_map (fun r => ([] ++ errors r)%list)
      (validate 0 (new_ProfileValidator cycle_B (Some (referenced_profiles self)))
         (VInt 7) "b")
  /\ (isinstance_dict (VInt 7) = false ->
      validate_field (validate 1) self d "" (Some "b", fd) []
      = Some ([] ++ [mkError "b" "Payload must be an object" (Some "object")
                       (Some "int")])%list).
Proof.
  apply (resolved_reference_validates_value 0 (cycle_validator true) [("b", VInt 7)] ""
           (Some "b")
           (mkField None (Some "b") (Some (mkDataType None (Some "urn:example:B"))) None)
           "urn:example:B" cycle_B (VInt 7) []);
    [reflexivity | discriminate | reflexivity | reflexivity | reflexivity].
Defined.

(** ** The text of a result *)

Lemma str_in_app_left (x a b : string) : str_in x a = true -> str_in x (a ++ b) = true.
Proof.
  rewrite !str_in_spec. intros (l & r & ->). exists l, (r ++ b).
  now rewrite !str_app_assoc.
Qed.

Lemma str_in_app_right (x a b : string) : str_in x b = true -> str_in x (a ++ b) = true.
Proof.
  rewrite !str_in_spec. intros (l & r & ->). exists (a ++ l), r.
  now rewrite !str_app_assoc.
Qed.

Lemma str_in_concat (x sep : string) (l : list string) (y : string) :
  In y l -> str_in x y = true -> str_in x (String.concat sep l) = true.
Proof.
  intros Hin Hx. induction l as [|z l IH]; [contradiction|].
  destruct Hin as [->|Hin].
  - destruct l; simpl; [exact Hx | now apply str_in_app_left].
  - specialize (IH Hin). destruct l as [|z' l]; [contradiction|].
    change (String.concat sep (z :: z' :: l))
      with (z ++ sep ++ String.concat sep (z' :: l)).
    now apply str_in_app_right, str_in_app_right.
Qed.

Lemma ValidationError_str_head (e : ValidationError) :
  str_in (path e ++ ": " ++ message e) ("  - " ++ ValidationError_str e) = true.
Proof.
  apply str_in_app_right. unfold ValidationError_str.
  destruct (truthy_str (expected e) && truthy_str (actual e)).
  - apply str_in_app_left, str_in_refl.
  - apply str_in_refl.
Qed.

(** X20. The text of the result of a validation is ["Valid"] exactly when
    there is no error; otherwise it starts with ["Invalid: "] and the
    number of errors, and it shows the path and the message of every
    error. *)
Theorem result_text (self : ProfileValidator) (payload : value) (prefix : string) :
  exists r,
    validate (S (depth payload)) self payload prefix = Some r
    /\ (ValidationResult_str r = "Valid" <-> errors r = [])
    /\ (errors r = []
        \/ str_prefix ("Invalid: " ++ str_of_nat (List.length (errors r)) ++ " error(s)")
             (ValidationResult_str r) = true)
    /\ Forall (fun e =>
                 str_in (path e ++ ": " ++ message e) (ValidationResult_str r) = true)
         (errors r).
Proof.
  destruct (validate_enough_fuel (S (depth payload)) self payload prefix) as [r Hr]; [lia|].
  exists r. split; [exact Hr|].
  apply validate_body_valid in Hr as [Hv _].
  unfold ValidationResult_str. rewrite Hv.
  destruct (errors r) as [|e es] eqn:He; cbn [List.length Nat.eqb].
  - split; [tauto|]. split; [now left | constructor].
  - split; [split; discriminate|]. split.
    + right.
      assert (Hassoc : forall a b c k : string, a ++ b ++ c ++ k = (a ++ b ++ c) ++ k)
        by (intros; now rewrite !str_app_assoc).
      rewrite Hassoc. apply prefix_app.
    + rewrite <- He. apply Forall_forall. intros x Hx.
      do 4 apply str_in_app_right.
      apply str_in_concat with (y := "  - " ++ ValidationError_str x).
      * apply in_map_iff. now exists x.
      * apply ValidationError_str_head.
Qed.

(** ** The order of the errors *)

Lemma fields_loop_concat rec self d prefix flds :
  forall es,
    fields_loop rec self d prefix flds [] = Some es ->
    exists per_field,
      Forall2 (fun fld es0 => validate_field rec self d prefix fld [] = Some es0)
        flds per_field
      /\ es = List.concat per_field.
Proof.
  induction flds as [|fld flds IH]; intros es; cbn [fields_loop].
  - intros [= <-]. exists []. split; [constructor | reflexivity].
  - destruct (validate_field rec self d prefix fld []) as [e1|] eqn:H1; [|discriminate].
    rewrite fields_loop_acc.
    destruct (fields_loop rec self d prefix flds []) as [e2|] eqn:H2; [|discriminate].
    intros [= <-]. destruct (IH e2 eq_refl) as (per_field & Hall & ->).
    exists (e1 :: per_field). split; [now constructor | reflexivity].
Qed.

(** X16. The errors of a payload object are the errors of the fields of the
    profile, field after field in the order of the table of fields, each
    field contributing what its own iteration reports. *)
Theorem errors_follow_field_order (self : ProfileValidator)
  (d : list (string * value)) (prefix : string) :
  exists r per_field,
    validate (S (depth (VDict d))) self (VDict d) prefix = Some r
    /\ Forall2 (fun fld es =>
                  validate_field (validate (depth (VDict d))) self d prefix fld []
                  = Some es)
         (fields self) per_field
    /\ errors r = List.concat per_field.
Proof.
  destruct (validate_enough_fuel (S (depth (VDict d))) self (VDict d) prefix) as [r Hr];
    [lia|].
  pose proof Hr as Hr'. cbn [validate] in Hr'. unfold validate_body in Hr'.
  destruct (fields_loop _ self d prefix (fields self) []) as [es|] eqn:H; [|discriminate].
  destruct (fields_loop_concat _ _ _ _ _ _ H) as (per_field & Hall & ->).
  exists r, per_field. injection Hr' as <-. auto.
Qed.

(** ** DateTime strings *)

